(** * keadm: profile resolution, override merging, deployment apply and
      edge configuration, as a shallow embedding of the Go sources

    The development follows the Go files
    - [keadm/cmd/keadm/app/cmd/util/helminstaller.go] (cloud side: profile
      handling, [--set] merging, helm upgrade/install),
    - the edge installer, which the sources carry in two revisions
      ([createEdgeConfigFiles], with and without [net.JoinHostPort]),
    - [keadm/cmd/keadm/app/cmd/cloud/init-beta.go] (version discovery).

    Go strings are byte strings ([string]); a Go [error] is [option string]
    ([None] is [nil]); effects are threaded through a small trace monad in
    which a run time panic is an outcome of its own. *)

From Stdlib Require Import Ascii String ZArith List Lia DecimalString.
From stdpp Require Import base option list sorting gmap strings.

Set Warnings "-clear-no-such-hyp".

Local Open Scope Z_scope.

(** ** Go values *)

(** A Go [error]: [nil] or a message. *)
Definition error : Type := option string.
Definition Errorf (msg : string) : error := Some msg.

(** ** The effect monad

    A computation reads the trace of external effects performed so far and
    extends it.  It either returns a value or panics; the trace is kept in
    both cases, so that what happened before a panic stays observable. *)

Inductive Outcome (A : Type) : Type :=
| Returned (a : A)
| Panicked (msg : string).
Arguments Returned {A} a.
Arguments Panicked {A} msg.

Definition M (E A : Type) : Type := list E → Outcome A * list E.

Global Instance M_ret {E} : MRet (M E) := λ A a tr, (Returned a, tr).

Global Instance M_bind {E} : MBind (M E) := λ A B k m tr,
  match m tr with
  | (Returned a, tr') => k a tr'
  | (Panicked msg, tr') => (Panicked msg, tr')
  end.

Definition ret {E A} (a : A) : M E A := mret a.

Definition emit {E} (e : E) : M E unit := λ tr, (Returned tt, tr ++ [e]).

Definition panic {E A} (msg : string) : M E A := λ tr, (Panicked msg, tr).

(** ** Package [strings], [strconv], [sort], [net] *)

(** [strings.Split(s, sep)] for a separator of one byte, the only use the
    sources make of it ("=", ":" and ","). The result is never empty. *)
Fixpoint Split (s : string) (sep : ascii) : list string :=
  match s with
  | EmptyString => [EmptyString]
  | String c s' =>
      if Ascii.eqb c sep then EmptyString :: Split s' sep
      else match Split s' sep with
           | [] => [String c EmptyString]
           | p :: ps => String c p :: ps
           end
  end.

(** [strings.TrimPrefix(s, "v")] for a prefix of one byte. *)
Definition TrimPrefix (s : string) (c : ascii) : string :=
  match s with
  | String c' s' => if Ascii.eqb c' c then s' else s
  | EmptyString => s
  end.

(** [strings.IndexByte(s, c) >= 0]. *)
Fixpoint ContainsByte (s : string) (c : ascii) : bool :=
  match s with
  | EmptyString => false
  | String c' s' => Ascii.eqb c' c || ContainsByte s' c
  end.

(** [strconv.Itoa], and the [%d] verb of [fmt.Sprintf] on an index. *)
Definition Itoa (n : Z) : string := NilZero.string_of_int (Z.to_int n).

(** [sort.Strings]: the ascending rearrangement for the bytewise order of
    Go strings. A sorted permutation of a list of strings is unique, so
    the sorting algorithm itself is not observable. *)
Definition sort_Strings (l : list string) : list string :=
  merge_sort String.le l.

(** [net.JoinHostPort]: a host that holds a colon is taken for a literal
    IPv6 address and bracketed. *)
Definition JoinHostPort (host port : string) : string :=
  if ContainsByte host ":"
  then "[" +:+ host +:+ "]:" +:+ port
  else host +:+ ":" +:+ port.

(** A slice element [p[i]]; reading out of range panics. *)
Definition index {E} (p : list string) (i : nat) : M E string :=
  match p !! i with
  | Some x => ret x
  | None => panic "index out of range"
  end.

(** The assignment [s[i] = x] on a slice, with [i] a Go [int]: out of
    range (negative included) it panics. *)
Definition assign {E A} (s : list A) (i : Z) (x : A) : M E (list A) :=
  if (0 <=? i) && (i <? Z.of_nat (length s))
  then ret (<[Z.to_nat i := x]> s)
  else panic "index out of range".

(** ** External collaborators

    Libraries and packages that the sources call but do not contain are
    interfaces here; each operation is a function of its arguments. *)

(** Package [fmt]: the text of [fmt.Errorf(format)] called with a format
    and no operand, as [checkProfile] does with a message that it has
    already formatted; a verb in such a format finds nothing to print. *)
Class Fmt : Type := {
  Errorf_format : string → string
}.

(** [github.com/blang/semver]: [Make] returns a version and an error. *)
Class Semver : Type := {
  Version : Type;
  semver_Make : string → Version * error;
  Version_LT : Version → Version → bool
}.

(** [map[string]interface{}], the value tree handed to helm. *)
Class ValueTree : Type := {
  Values : Type;
  (** the literal [map[string]interface{}{}] *)
  emptyValues : Values
}.

(** The profile store ([readProfiles], [LoadValues]) and the two parsers
    that fill a value tree ([yaml.Unmarshal], [strvals.ParseInto]). *)
Class ProfileStore `{ValueTree} : Type := {
  readProfiles : string → gmap string bool * error;
  LoadValues : string → string → string * error;
  yaml_Unmarshal : string → Values → Values * error;
  strvals_ParseInto : string → Values → Values * error
}.

(** [helm.sh/helm/v3/pkg/action]: the fields of [action.Upgrade] and
    [action.Install] that the installer sets. *)
Record Upgrade : Type := {
  upgrade_DryRun : bool;
  upgrade_Namespace : string;
  upgrade_Wait : bool;
  upgrade_Timeout : Z;
  upgrade_Install : bool
}.

Record Install : Type := {
  install_DryRun : bool;
  install_Namespace : string;
  install_Wait : bool;
  install_Timeout : Z;
  install_CreateNamespace : bool;
  install_ReleaseName : string
}.

Class Helm `{ValueTree} : Type := {
  Chart : Type;
  (** [cfg.Init(cf, namespace, "", logFunc)], by kube config and namespace *)
  Configuration_Init : string → string → error;
  NewUpgrade : Upgrade;
  (** the error of [helmUpgrade.Run(name, chart, vals)] *)
  Upgrade_Run : Upgrade → string → Chart → Values → error;
  NewInstall : Install;
  (** the error of [helmInstall.Run(chart, vals)] *)
  Install_Run : Install → Chart → Values → error;
  (** [driver.NewErrNoDeployedReleases(name).Error()] *)
  NewErrNoDeployedReleases : string → string
}.

(** Constants of the packages [common] and [util] whose values neither the
    sources nor the specification give. *)
Class Constants : Type := {
  HelmSupportedMinVersion : string;
  DefaultKubeEdgeVersion : string;
  RetryTimes : Z
}.

(** Modelled from the spec: [types.VersionProfileKey], declared in the
    package [common], which is not among the sources; the specification
    names the profile key [version]. *)
Definition VersionProfileKey : string := "version".

(** Modelled from the spec: [types.IptablesMgrProfileKey] (package
    [common]); the specification names the profile key [iptablesMgrMode]. *)
Definition IptablesMgrProfileKey : string := "iptablesMgrMode".

(** Modelled from the spec: [types.InternalIptablesMgrMode] (package
    [common]); the specification gives the two modes as [internal] and
    [external]. *)
Definition InternalIptablesMgrMode : string := "internal".

(** Modelled from the spec: [types.ExternalIptablesMgrMode] (package
    [common]); the second of the two modes of the specification. *)
Definition ExternalIptablesMgrMode : string := "external".

Definition DefaultHelmRoot : string := "".
Definition DefaultHelmTimeout : Z := 60 * 1000000000.
Definition DefaultHelmInstall : bool := true.
Definition DefaultHelmWait : bool := true.
Definition DefaultHelmCreateNs : bool := true.

(** ** The cloud installer ([helminstaller.go]) *)

Section Cloud.
Context `{Fmt, Semver, Constants, VT : ValueTree, !ProfileStore, !Helm}.

(** The fields of [util.Common] that the installer reads. *)
Record Common : Type := {
  ToolVersion : Version;
  KubeConfig : string
}.

Record KubeCloudHelmInstTool : Type := {
  common : Common;
  AdvertiseAddress : string;
  Manifests : string;
  Namespace : string;
  DryRun : bool;
  CloudcoreImage : string;
  CloudcoreTag : string;
  IptablesMgrImage : string;
  IptablesMgrTag : string;
  Sets : list string;
  Profile : string;
  ProfileKey : string;
  Force : bool
}.

Definition set_Sets (cu : KubeCloudHelmInstTool) (sets : list string)
  : KubeCloudHelmInstTool :=
  {| common := common cu; AdvertiseAddress := AdvertiseAddress cu;
     Manifests := Manifests cu; Namespace := Namespace cu;
     DryRun := DryRun cu; CloudcoreImage := CloudcoreImage cu;
     CloudcoreTag := CloudcoreTag cu;
     IptablesMgrImage := IptablesMgrImage cu;
     IptablesMgrTag := IptablesMgrTag cu; Sets := sets;
     Profile := Profile cu; ProfileKey := ProfileKey cu;
     Force := Force cu |}.

Definition set_Profile (cu : KubeCloudHelmInstTool) (p : string)
  : KubeCloudHelmInstTool :=
  {| common := common cu; AdvertiseAddress := AdvertiseAddress cu;
     Manifests := Manifests cu; Namespace := Namespace cu;
     DryRun := DryRun cu; CloudcoreImage := CloudcoreImage cu;
     CloudcoreTag := CloudcoreTag cu;
     IptablesMgrImage := IptablesMgrImage cu;
     IptablesMgrTag := IptablesMgrTag cu; Sets := Sets cu;
     Profile := p; ProfileKey := ProfileKey cu;
     Force := Force cu |}.

Definition set_ProfileKey (cu : KubeCloudHelmInstTool) (k : string)
  : KubeCloudHelmInstTool :=
  {| common := common cu; AdvertiseAddress := AdvertiseAddress cu;
     Manifests := Manifests cu; Namespace := Namespace cu;
     DryRun := DryRun cu; CloudcoreImage := CloudcoreImage cu;
     CloudcoreTag := CloudcoreTag cu;
     IptablesMgrImage := IptablesMgrImage cu;
     IptablesMgrTag := IptablesMgrTag cu; Sets := Sets cu;
     Profile := Profile cu; ProfileKey := k;
     Force := Force cu |}.

(** The renderer, as far as [RunHelmInstall] reads it. *)
Record Renderer : Type := {
  componentName : string;
  chart : Chart;
  profileValsMap : Values
}.

(** What the cloud installer does to the outside: lines on standard
    output and calls of the helm actions, each with its arguments. *)
Inductive CloudEvent : Type :=
| EvPrintln (line : string)
| EvInit (kubeConfig namespace : string)
| EvUpgrade (u : Upgrade) (name : string) (c : Chart) (vals : Values)
| EvInstall (i : Install) (c : Chart) (vals : Values).

(** [checkProfile] *)
Definition checkProfile (cu : KubeCloudHelmInstTool) : error :=
  let '(validProfiles, err) := readProfiles DefaultHelmRoot in
  match err with
  | Some _ => Errorf "cannot list profile"
  | None =>
      if negb (default false (validProfiles !! ProfileKey cu))
      then Errorf (Errorf_format ("unsupported profile " +:+ Profile cu))
      else None
  end.

(** [handleProfile]: the receiver after the call, and the error. The
    assignment to [profileValue] in the last case is to the parameter,
    which nothing reads afterwards. *)
Definition handleProfile (cu : KubeCloudHelmInstTool) (profileValue : string)
  : KubeCloudHelmInstTool * error :=
  if String.eqb (ProfileKey cu) VersionProfileKey then
    let profileValueSuffix := TrimPrefix profileValue "v" in
    if negb (String.eqb profileValue profileValueSuffix) then
      let '(version, err) := semver_Make profileValueSuffix in
      match err with
      | Some e => (cu, Some e)
      | None =>
          let '(minVersion, _) :=
            semver_Make (TrimPrefix HelmSupportedMinVersion "v") in
          if Version_LT version minVersion then
            (cu, Errorf ("the given version " +:+ profileValue +:+
               " is not supported, you can try binary deployments with this version"))
          else
            let cu := set_Sets cu (Sets cu ++
              ["cloudCore.image.tag" +:+ "=v" +:+ profileValueSuffix]) in
            let cu := set_Sets cu (Sets cu ++
              ["iptablesManager.image.tag" +:+ "=v" +:+ profileValueSuffix]) in
            (cu, None)
      end
    else
      let cu := set_Sets cu (Sets cu ++
        ["cloudCore.image.tag" +:+ "=" +:+ profileValue]) in
      let cu := set_Sets cu (Sets cu ++
        ["iptablesManager.image.tag" +:+ "=" +:+ profileValue]) in
      (cu, None)
  else if String.eqb (ProfileKey cu) IptablesMgrProfileKey then
    if String.eqb profileValue InternalIptablesMgrMode
       || String.eqb profileValue ExternalIptablesMgrMode
    then (set_Sets cu (Sets cu ++
            ["iptablesManager.mode" +:+ "=" +:+ profileValue]), None)
    else
      let profileValue := ExternalIptablesMgrMode in
      (cu, None)
  else (cu, None).

(** The first loop of [rebuildFlagVals]: one indexed override for each
    advertise address. *)
Fixpoint advertiseSets (index : Z) (addrs sets : list string) : list string :=
  match addrs with
  | [] => sets
  | addr :: rest =>
      advertiseSets (index + 1) rest
        (sets ++ ["cloudCore.modules.cloudHub.advertiseAddress" +:+ "["
                  +:+ Itoa index +:+ "]=" +:+ addr])
  end.

(** The flag values that [rebuildFlagVals] appends to [cu.Sets] before
    it sorts. *)
Definition combineFlagVals (cu : KubeCloudHelmInstTool) : list string :=
  let sets := Sets cu in
  let sets :=
    if negb (String.eqb (AdvertiseAddress cu) "")
    then advertiseSets 0 (Split (AdvertiseAddress cu) ",") sets
    else sets in
  let sets :=
    if negb (String.eqb (CloudcoreImage cu) "")
    then sets ++ ["cloudCore.image.repository" +:+ "=" +:+ CloudcoreImage cu]
    else sets in
  let sets :=
    if negb (String.eqb (CloudcoreTag cu) "")
    then sets ++ ["cloudCore.image.tag" +:+ "=" +:+ CloudcoreTag cu]
    else sets in
  let sets :=
    if negb (String.eqb (IptablesMgrImage cu) "")
    then sets ++ ["iptablesManager.image.repository" +:+ "=" +:+ IptablesMgrImage cu]
    else sets in
  if negb (String.eqb (IptablesMgrTag cu) "")
  then sets ++ ["iptablesManager.image.tag" +:+ "=" +:+ IptablesMgrTag cu]
  else sets.

(** The second loop of [rebuildFlagVals], over the sorted overrides:
    [index] is the loop index, [formerValue] and [sets] the two local
    variables. *)
Fixpoint dedupLoop (idx : Z) (l : list string) (formerValue : string)
    (sets : list string) : M CloudEvent (list string) :=
  match l with
  | [] => ret sets
  | s :: rest =>
      let p := Split s "=" in
      if Z.of_nat (length p) <? 2 then
        emit (EvPrintln ("Unsported flags: " +:+ s));;
        dedupLoop (idx + 1) rest formerValue sets
      else
        p0 ← index p 0;
        sets ← (if (0 <? idx) && String.eqb p0 formerValue
                then assign sets (Z.of_nat (length sets) - 1) s
                else ret (sets ++ [s]));
        dedupLoop (idx + 1) rest p0 sets
  end.

(** [rebuildFlagVals] *)
Definition rebuildFlagVals (cu : KubeCloudHelmInstTool)
  : M CloudEvent (KubeCloudHelmInstTool * error) :=
  let cu := set_Sets cu (combineFlagVals cu) in
  let formerValue := "" in
  let sets := [] in
  let cu := set_Sets cu (sort_Strings (Sets cu)) in
  sets ← dedupLoop 0 (Sets cu) formerValue sets;
  ret (set_Sets cu sets, None).

(** [BeforeRenderer] *)
Definition BeforeRenderer (cu : KubeCloudHelmInstTool)
  : M CloudEvent (KubeCloudHelmInstTool * error) :=
  let cu :=
    if String.eqb (Profile cu) ""
    then set_Profile cu (VersionProfileKey +:+ "=" +:+ HelmSupportedMinVersion)
    else cu in
  let p := Split (Profile cu) "=" in
  if Z.of_nat (length p) <? 2 then
    ret (cu, Errorf ("invalid profile " +:+ Profile cu))
  else
    p0 ← index p 0;
    let cu := set_ProfileKey cu p0 in
    match checkProfile cu with
    | Some _ => ret (cu, Errorf ("invalid profile " +:+ Profile cu))
    | None =>
        p1 ← index p 1;
        let '(cu, err) := handleProfile cu p1 in
        match err with
        | Some _ => ret (cu, Errorf ("can not handle profile " +:+ Profile cu))
        | None =>
            '(cu, err) ← rebuildFlagVals cu;
            match err with
            | Some e => ret (cu, Some e)
            | None => ret (cu, None)
            end
        end
    end.

(** The loop of [combineProfVals] over [cu.Sets]. *)
Fixpoint parseSets (sets : list string) (profileValsMap : Values)
  : Values * error :=
  match sets with
  | [] => (profileValsMap, None)
  | value :: rest =>
      let '(profileValsMap, err) := strvals_ParseInto value profileValsMap in
      match err with
      | Some e => (profileValsMap, Errorf ("failed parsing --set data:" +:+ e))
      | None => parseSets rest profileValsMap
      end
  end.

(** [combineProfVals]: the map is [None] where the Go function returns
    a nil map. *)
Definition combineProfVals (cu : KubeCloudHelmInstTool)
  : option Values * error :=
  let profileValsMap := emptyValues in
  let '(profileValue, err) := LoadValues (ProfileKey cu) DefaultHelmRoot in
  match err with
  | Some e => (None, Errorf ("cannot load profile yaml:" +:+ e))
  | None =>
      let '(profileValsMap, err) := yaml_Unmarshal profileValue profileValsMap in
      match err with
      | Some e => (None, Errorf ("failed to unmarshal values: " +:+ e))
      | None =>
          let '(profileValsMap, err) := parseSets (Sets cu) profileValsMap in
          match err with
          | Some e => (None, Some e)
          | None => (Some profileValsMap, None)
          end
      end
  end.

(** [RunHelmInstall] *)
Definition RunHelmInstall (cu : KubeCloudHelmInstTool) (r : Renderer)
  : M CloudEvent error :=
  emit (EvInit (KubeConfig (common cu)) (Namespace cu));;
  match Configuration_Init (KubeConfig (common cu)) (Namespace cu) with
  | Some e => ret (Some e)
  | None =>
      let helmUpgrade := NewUpgrade in
      let helmUpgrade :=
        {| upgrade_DryRun := DryRun cu;
           upgrade_Namespace := Namespace cu;
           upgrade_Wait :=
             if negb (Force cu) then DefaultHelmWait
             else upgrade_Wait helmUpgrade;
           upgrade_Timeout :=
             if negb (Force cu) then DefaultHelmTimeout
             else upgrade_Timeout helmUpgrade;
           upgrade_Install := DefaultHelmInstall |} in
      emit (EvUpgrade helmUpgrade (componentName r) (chart r)
              (profileValsMap r));;
      match Upgrade_Run helmUpgrade (componentName r) (chart r)
              (profileValsMap r) with
      | Some err =>
          let errReleaseNotFound := NewErrNoDeployedReleases (componentName r) in
          if String.eqb err errReleaseNotFound then
            let helmInstall := NewInstall in
            let helmInstall :=
              {| install_DryRun := DryRun cu;
                 install_Namespace := Namespace cu;
                 install_Wait :=
                   if negb (Force cu) then DefaultHelmWait
                   else install_Wait helmInstall;
                 install_Timeout :=
                   if negb (Force cu) then DefaultHelmTimeout
                   else install_Timeout helmInstall;
                 install_CreateNamespace := DefaultHelmCreateNs;
                 install_ReleaseName := componentName r |} in
            emit (EvInstall helmInstall (chart r) (profileValsMap r));;
            match Install_Run helmInstall (chart r) (profileValsMap r) with
            | Some err => ret (Some err)
            | None => ret None
            end
          else ret (Some err)
      | None => ret None
      end
  end.

End Cloud.

(** ** The edge installer ([createEdgeConfigFiles], two revisions) *)

(** [corev1.Taint], the two fields the installer sets. *)
Record Taint : Type := {
  taint_Key : string;
  taint_Effect : string
}.

(** [v1alpha1.EdgeCoreConfig], the fields under [Modules] that the
    installer assigns; a field is named by its path. *)
Record EdgeCoreConfig : Type := {
  EdgeHub_WebSocket_Server : string;
  EdgeHub_HTTPServer : string;
  EdgeHub_Quic_Server : string;
  EdgeHub_Token : string;
  Edged_HostnameOverride : string;
  Edged_NodeIP : string;
  Edged_RuntimeType : string;
  Edged_CGroupDriver : string;
  Edged_RemoteRuntimeEndpoint : string;
  Edged_RemoteImageEndpoint : string;
  Edged_Taints : list Taint;
  Edged_Labels : gmap string string;
  EdgeStream_TunnelServer : string
}.

Record KubeEdgeInstTool : Type := {
  CertPath : string;
  CloudCoreIP : string;
  EdgeNodeName : string;
  HasDefaultTaint : bool;
  EdgeNodeIP : string;
  Region : string;
  ConfigPath : string;
  RuntimeType : string;
  RemoteRuntimeEndpoint : string;
  Token : string;
  CertPort : string;
  QuicPort : string;
  TunnelPort : string;
  CGroupDriver : string;
  TarballPath : string;
  Labels : list string
}.

(** Modelled from the spec: [v1alpha1.CGroupDriverSystemd], declared in
    the package [v1alpha1], which is not among the sources; the
    specification gives the cgroup drivers as [systemd] and [cgroupfs]. *)
Definition CGroupDriverSystemd : string := "systemd".

(** Modelled from the spec: [v1alpha1.CGroupDriverCGroupFS] (package
    [v1alpha1]); the second of the two drivers of the specification. *)
Definition CGroupDriverCGroupFS : string := "cgroupfs".

(** Modelled from the spec: [constants.DefaultTunnelPort], declared in the
    package [constants], which is not among the sources; the specification
    gives the default tunnel port as 10004. *)
Definition DefaultTunnelPort : Z := 10004.

(** What the sources do not contain of the edge side: the default
    configuration, the file system calls, the validator with the
    flattening of its error list ([errs.ToAggregate().Errors()]),
    [util.SpliceErrors], and two paths. *)
Class EdgeHost : Type := {
  KubeEdgeConfigDir : string;
  KubeEdgeEdgeCoreNewYaml : string;
  NewDefaultEdgeCoreConfig : EdgeCoreConfig;
  os_MkdirAll : string → error;
  FieldError : Type;
  ValidateEdgeCoreConfiguration : EdgeCoreConfig → list FieldError;
  ToAggregate_Errors : list FieldError → list string;
  SpliceErrors : list string → string;
  Write2File : string → EdgeCoreConfig → error
}.

Section Edge.
Context `{EdgeHost}.

Inductive EdgeEvent : Type :=
| EvMkdirAll (path : string)
| EvWrite2File (path : string) (config : EdgeCoreConfig).

Definition set_HTTPServer (c : EdgeCoreConfig) (v : string) : EdgeCoreConfig :=
  {| EdgeHub_WebSocket_Server := EdgeHub_WebSocket_Server c;
     EdgeHub_HTTPServer := v;
     EdgeHub_Quic_Server := EdgeHub_Quic_Server c;
     EdgeHub_Token := EdgeHub_Token c;
     Edged_HostnameOverride := Edged_HostnameOverride c;
     Edged_NodeIP := Edged_NodeIP c;
     Edged_RuntimeType := Edged_RuntimeType c;
     Edged_CGroupDriver := Edged_CGroupDriver c;
     Edged_RemoteRuntimeEndpoint := Edged_RemoteRuntimeEndpoint c;
     Edged_RemoteImageEndpoint := Edged_RemoteImageEndpoint c;
     Edged_Taints := Edged_Taints c;
     Edged_Labels := Edged_Labels c;
     EdgeStream_TunnelServer := EdgeStream_TunnelServer c |}.

Definition set_Quic_Server (c : EdgeCoreConfig) (v : string) : EdgeCoreConfig :=
  {| EdgeHub_WebSocket_Server := EdgeHub_WebSocket_Server c;
     EdgeHub_HTTPServer := EdgeHub_HTTPServer c;
     EdgeHub_Quic_Server := v;
     EdgeHub_Token := EdgeHub_Token c;
     Edged_HostnameOverride := Edged_HostnameOverride c;
     Edged_NodeIP := Edged_NodeIP c;
     Edged_RuntimeType := Edged_RuntimeType c;
     Edged_CGroupDriver := Edged_CGroupDriver c;
     Edged_RemoteRuntimeEndpoint := Edged_RemoteRuntimeEndpoint c;
     Edged_RemoteImageEndpoint := Edged_RemoteImageEndpoint c;
     Edged_Taints := Edged_Taints c;
     Edged_Labels := Edged_Labels c;
     EdgeStream_TunnelServer := EdgeStream_TunnelServer c |}.

Definition set_TunnelServer (c : EdgeCoreConfig) (v : string) : EdgeCoreConfig :=
  {| EdgeHub_WebSocket_Server := EdgeHub_WebSocket_Server c;
     EdgeHub_HTTPServer := EdgeHub_HTTPServer c;
     EdgeHub_Quic_Server := EdgeHub_Quic_Server c;
     EdgeHub_Token := EdgeHub_Token c;
     Edged_HostnameOverride := Edged_HostnameOverride c;
     Edged_NodeIP := Edged_NodeIP c;
     Edged_RuntimeType := Edged_RuntimeType c;
     Edged_CGroupDriver := Edged_CGroupDriver c;
     Edged_RemoteRuntimeEndpoint := Edged_RemoteRuntimeEndpoint c;
     Edged_RemoteImageEndpoint := Edged_RemoteImageEndpoint c;
     Edged_Taints := Edged_Taints c;
     Edged_Labels := Edged_Labels c;
     EdgeStream_TunnelServer := v |}.

(** The assignments of the node identity and of the token: websocket
    server, host name, node address, runtime type. *)
Definition set_identity (c : EdgeCoreConfig) (ku : KubeEdgeInstTool)
  : EdgeCoreConfig :=
  {| EdgeHub_WebSocket_Server := CloudCoreIP ku;
     EdgeHub_HTTPServer := EdgeHub_HTTPServer c;
     EdgeHub_Quic_Server := EdgeHub_Quic_Server c;
     EdgeHub_Token := EdgeHub_Token c;
     Edged_HostnameOverride :=
       if negb (String.eqb (EdgeNodeName ku) "") then EdgeNodeName ku
       else Edged_HostnameOverride c;
     Edged_NodeIP :=
       if negb (String.eqb (EdgeNodeIP ku) "") then EdgeNodeIP ku
       else Edged_NodeIP c;
     Edged_RuntimeType :=
       if negb (String.eqb (RuntimeType ku) "") then RuntimeType ku
       else Edged_RuntimeType c;
     Edged_CGroupDriver := Edged_CGroupDriver c;
     Edged_RemoteRuntimeEndpoint := Edged_RemoteRuntimeEndpoint c;
     Edged_RemoteImageEndpoint := Edged_RemoteImageEndpoint c;
     Edged_Taints := Edged_Taints c;
     Edged_Labels := Edged_Labels c;
     EdgeStream_TunnelServer := EdgeStream_TunnelServer c |}.

Definition set_CGroupDriver (c : EdgeCoreConfig) (v : string) : EdgeCoreConfig :=
  {| EdgeHub_WebSocket_Server := EdgeHub_WebSocket_Server c;
     EdgeHub_HTTPServer := EdgeHub_HTTPServer c;
     EdgeHub_Quic_Server := EdgeHub_Quic_Server c;
     EdgeHub_Token := EdgeHub_Token c;
     Edged_HostnameOverride := Edged_HostnameOverride c;
     Edged_NodeIP := Edged_NodeIP c;
     Edged_RuntimeType := Edged_RuntimeType c;
     Edged_CGroupDriver := v;
     Edged_RemoteRuntimeEndpoint := Edged_RemoteRuntimeEndpoint c;
     Edged_RemoteImageEndpoint := Edged_RemoteImageEndpoint c;
     Edged_Taints := Edged_Taints c;
     Edged_Labels := Edged_Labels c;
     EdgeStream_TunnelServer := EdgeStream_TunnelServer c |}.

(** The runtime endpoint (both fields) and the token. *)
Definition set_runtime_token (c : EdgeCoreConfig) (ku : KubeEdgeInstTool)
  : EdgeCoreConfig :=
  {| EdgeHub_WebSocket_Server := EdgeHub_WebSocket_Server c;
     EdgeHub_HTTPServer := EdgeHub_HTTPServer c;
     EdgeHub_Quic_Server := EdgeHub_Quic_Server c;
     EdgeHub_Token :=
       if negb (String.eqb (Token ku) "") then Token ku else EdgeHub_Token c;
     Edged_HostnameOverride := Edged_HostnameOverride c;
     Edged_NodeIP := Edged_NodeIP c;
     Edged_RuntimeType := Edged_RuntimeType c;
     Edged_CGroupDriver := Edged_CGroupDriver c;
     Edged_RemoteRuntimeEndpoint :=
       if negb (String.eqb (RemoteRuntimeEndpoint ku) "")
       then RemoteRuntimeEndpoint ku else Edged_RemoteRuntimeEndpoint c;
     Edged_RemoteImageEndpoint :=
       if negb (String.eqb (RemoteRuntimeEndpoint ku) "")
       then RemoteRuntimeEndpoint ku else Edged_RemoteImageEndpoint c;
     Edged_Taints := Edged_Taints c;
     Edged_Labels := Edged_Labels c;
     EdgeStream_TunnelServer := EdgeStream_TunnelServer c |}.

Definition set_Taints (c : EdgeCoreConfig) (v : list Taint) : EdgeCoreConfig :=
  {| EdgeHub_WebSocket_Server := EdgeHub_WebSocket_Server c;
     EdgeHub_HTTPServer := EdgeHub_HTTPServer c;
     EdgeHub_Quic_Server := EdgeHub_Quic_Server c;
     EdgeHub_Token := EdgeHub_Token c;
     Edged_HostnameOverride := Edged_HostnameOverride c;
     Edged_NodeIP := Edged_NodeIP c;
     Edged_RuntimeType := Edged_RuntimeType c;
     Edged_CGroupDriver := Edged_CGroupDriver c;
     Edged_RemoteRuntimeEndpoint := Edged_RemoteRuntimeEndpoint c;
     Edged_RemoteImageEndpoint := Edged_RemoteImageEndpoint c;
     Edged_Taints := v;
     Edged_Labels := Edged_Labels c;
     EdgeStream_TunnelServer := EdgeStream_TunnelServer c |}.

Definition set_Labels (c : EdgeCoreConfig) (v : gmap string string)
  : EdgeCoreConfig :=
  {| EdgeHub_WebSocket_Server := EdgeHub_WebSocket_Server c;
     EdgeHub_HTTPServer := EdgeHub_HTTPServer c;
     EdgeHub_Quic_Server := EdgeHub_Quic_Server c;
     EdgeHub_Token := EdgeHub_Token c;
     Edged_HostnameOverride := Edged_HostnameOverride c;
     Edged_NodeIP := Edged_NodeIP c;
     Edged_RuntimeType := Edged_RuntimeType c;
     Edged_CGroupDriver := Edged_CGroupDriver c;
     Edged_RemoteRuntimeEndpoint := Edged_RemoteRuntimeEndpoint c;
     Edged_RemoteImageEndpoint := Edged_RemoteImageEndpoint c;
     Edged_Taints := Edged_Taints c;
     Edged_Labels := v;
     EdgeStream_TunnelServer := EdgeStream_TunnelServer c |}.

(** The [switch] on [ku.CGroupDriver]: the configuration, or the error
    that the function returns at once. *)
Definition setCGroupDriver (c : EdgeCoreConfig) (ku : KubeEdgeInstTool)
  : EdgeCoreConfig + error :=
  if negb (String.eqb (CGroupDriver ku) "") then
    if String.eqb (CGroupDriver ku) CGroupDriverSystemd
    then inl (set_CGroupDriver c CGroupDriverSystemd)
    else if String.eqb (CGroupDriver ku) CGroupDriverCGroupFS
    then inl (set_CGroupDriver c CGroupDriverCGroupFS)
    else inr (Errorf ("unsupported CGroupDriver: " +:+ CGroupDriver ku))
  else inl c.

(** The three derived endpoints; each reads
    [strings.Split(ku.CloudCoreIP, ":")[0]] anew. *)
Definition setServers (c : EdgeCoreConfig) (ku : KubeEdgeInstTool)
  : M EdgeEvent EdgeCoreConfig :=
  host ← index (Split (CloudCoreIP ku) ":") 0;
  let c :=
    if negb (String.eqb (CertPort ku) "")
    then set_HTTPServer c ("https://" +:+ host +:+ ":" +:+ CertPort ku)
    else set_HTTPServer c ("https://" +:+ host +:+ ":10002") in
  host ← index (Split (CloudCoreIP ku) ":") 0;
  let c :=
    if negb (String.eqb (QuicPort ku) "")
    then set_Quic_Server c (host +:+ ":" +:+ QuicPort ku)
    else set_Quic_Server c (host +:+ ":10001") in
  host ← index (Split (CloudCoreIP ku) ":") 0;
  let c :=
    if negb (String.eqb (TunnelPort ku) "")
    then set_TunnelServer c (host +:+ ":" +:+ TunnelPort ku)
    else set_TunnelServer c (host +:+ ":10004") in
  ret c.

(** The taint that [HasDefaultTaint] adds. *)
Definition setTaints (c : EdgeCoreConfig) (ku : KubeEdgeInstTool)
  : EdgeCoreConfig :=
  if HasDefaultTaint ku then
    let taint := {| taint_Key := "node-role.kubernetes.io/edge";
                    taint_Effect := "NoSchedule" |} in
    set_Taints c (Edged_Taints c ++ [taint])
  else c.

(** The loop over [ku.Labels]. *)
Fixpoint labelsLoop (labels : list string) (labelsMap : gmap string string)
  : M EdgeEvent (gmap string string) :=
  match labels with
  | [] => ret labelsMap
  | label :: rest =>
      key ← index (Split label "=") 0;
      value ← index (Split label "=") 1;
      labelsLoop rest (<[key := value]> labelsMap)
  end.

Definition setLabels (c : EdgeCoreConfig) (ku : KubeEdgeInstTool)
  : M EdgeEvent EdgeCoreConfig :=
  if 1 <=? Z.of_nat (length (Labels ku)) then
    labelsMap ← labelsLoop (Labels ku) ∅;
    ret (set_Labels c labelsMap)
  else ret c.

(** The end of both revisions: validation, then the write. *)
Definition validateAndWrite (edgeCoreConfig : EdgeCoreConfig)
  : M EdgeEvent error :=
  let errs := ValidateEdgeCoreConfiguration edgeCoreConfig in
  if 0 <? Z.of_nat (length errs) then
    ret (Some (SpliceErrors (ToAggregate_Errors errs)))
  else
    emit (EvWrite2File KubeEdgeEdgeCoreNewYaml edgeCoreConfig);;
    ret (Write2File KubeEdgeEdgeCoreNewYaml edgeCoreConfig).

(** The body of [createEdgeConfigFiles] from [NewDefaultEdgeCoreConfig]
    to the label loop, in the revision without [net.JoinHostPort]: the
    configuration under assembly, or the error of an early return. *)
Definition assembleEdgeCoreConfig (ku : KubeEdgeInstTool)
  : M EdgeEvent (EdgeCoreConfig + error) :=
  let edgeCoreConfig := NewDefaultEdgeCoreConfig in
  let edgeCoreConfig := set_identity edgeCoreConfig ku in
  match setCGroupDriver edgeCoreConfig ku with
  | inr err => ret (inr err)
  | inl edgeCoreConfig =>
      let edgeCoreConfig := set_runtime_token edgeCoreConfig ku in
      edgeCoreConfig ← setServers edgeCoreConfig ku;
      let edgeCoreConfig := setTaints edgeCoreConfig ku in
      edgeCoreConfig ← setLabels edgeCoreConfig ku;
      ret (inl edgeCoreConfig)
  end.

(** [createEdgeConfigFiles], the revision without [net.JoinHostPort] *)
Definition createEdgeConfigFiles (ku : KubeEdgeInstTool) : M EdgeEvent error :=
  emit (EvMkdirAll KubeEdgeConfigDir);;
  match os_MkdirAll KubeEdgeConfigDir with
  | Some _ =>
      ret (Errorf ("not able to create " +:+ KubeEdgeConfigDir +:+ " folder path"))
  | None =>
      r ← assembleEdgeCoreConfig ku;
      match r with
      | inr err => ret err
      | inl edgeCoreConfig => validateAndWrite edgeCoreConfig
      end
  end.

(** The same stretch of the revision with [net.JoinHostPort]: the
    endpoints are set before the taint and the cgroup driver, and after
    the token the HTTP server is set once more and the tunnel server is
    replaced by the host joined with the default tunnel port. *)
Definition assembleEdgeCoreConfig_JoinHostPort (ku : KubeEdgeInstTool)
  : M EdgeEvent (EdgeCoreConfig + error) :=
  let edgeCoreConfig := NewDefaultEdgeCoreConfig in
  let edgeCoreConfig := set_identity edgeCoreConfig ku in
  edgeCoreConfig ← setServers edgeCoreConfig ku;
  let edgeCoreConfig := setTaints edgeCoreConfig ku in
  match setCGroupDriver edgeCoreConfig ku with
  | inr err => ret (inr err)
  | inl edgeCoreConfig =>
      let edgeCoreConfig := set_runtime_token edgeCoreConfig ku in
      cloudCoreIP ← index (Split (CloudCoreIP ku) ":") 0;
      let edgeCoreConfig :=
        if negb (String.eqb (CertPort ku) "")
        then set_HTTPServer edgeCoreConfig
               ("https://" +:+ cloudCoreIP +:+ ":" +:+ CertPort ku)
        else set_HTTPServer edgeCoreConfig
               ("https://" +:+ cloudCoreIP +:+ ":10002") in
      let edgeCoreConfig :=
        set_TunnelServer edgeCoreConfig
          (JoinHostPort cloudCoreIP (Itoa DefaultTunnelPort)) in
      edgeCoreConfig ← setLabels edgeCoreConfig ku;
      ret (inl edgeCoreConfig)
  end.

(** [createEdgeConfigFiles], the revision with [net.JoinHostPort] *)
Definition createEdgeConfigFiles_JoinHostPort (ku : KubeEdgeInstTool)
  : M EdgeEvent error :=
  emit (EvMkdirAll KubeEdgeConfigDir);;
  match os_MkdirAll KubeEdgeConfigDir with
  | Some _ =>
      ret (Errorf ("not able to create " +:+ KubeEdgeConfigDir +:+ " folder path"))
  | None =>
      r ← assembleEdgeCoreConfig_JoinHostPort ku;
      match r with
      | inr err => ret err
      | inl edgeCoreConfig => validateAndWrite edgeCoreConfig
      end
  end.

End Edge.

(** ** Version discovery ([init-beta.go]) *)

(** [util.GetLatestVersion], a network call: the answer to the attempt of
    a given number, counted from zero.  [constants.SystemNamespace] is a
    constant of a package that is not among the sources. *)
Class VersionSource : Type := {
  GetLatestVersion : nat → string * error;
  SystemNamespace : string
}.

(** [types.InitBetaOptions] *)
Record InitBetaOptions : Type := {
  opt_KubeConfig : string;
  opt_AdvertiseAddress : string;
  opt_Manifests : string;
  opt_Namespace : string;
  opt_DryRun : bool;
  opt_CloudcoreImage : string;
  opt_CloudcoreTag : string;
  opt_IptablesMgrImage : string;
  opt_IptablesMgrTag : string;
  opt_Sets : list string;
  opt_Profile : string;
  opt_Force : bool
}.

Section InitBeta.
Context `{Semver, Constants, VersionSource}.

Inductive InitEvent : Type :=
| EvGetLatestVersion
| EvLog (line : string).

(** [semver.MustParse]: the parsed version, or a panic on the error. *)
Definition MustParse (s : string) : M InitEvent Version :=
  let '(v, err) := semver_Make s in
  match err with
  | Some e => panic ("semver: Parse(" +:+ s +:+ "): " +:+ e)
  | None => ret v
  end.

(** The retry loop of [AddInitBeta2ToolsList]: [n] iterations are left,
    [i] is the loop counter; the result is [kubeVer] and
    [latestVersion]. *)
Fixpoint latestVersionLoop (n i : nat) (kubeVer latestVersion : string)
  : M InitEvent (string * string) :=
  match n with
  | O => ret (kubeVer, latestVersion)
  | S n' =>
      emit EvGetLatestVersion;;
      let '(version, err) := GetLatestVersion i in
      match err with
      | Some e =>
          emit (EvLog
            ("Failed to get the latest KubeEdge release version, error:  " +:+ e));;
          latestVersionLoop n' (S i) kubeVer latestVersion
      | None =>
          if 0 <? Z.of_nat (String.length version)
          then ret (TrimPrefix version "v", version)
          else latestVersionLoop n' (S i) kubeVer latestVersion
      end
  end.

(** [AddInitBeta2ToolsList]: the tool list after the call, and the
    error. *)
Definition AddInitBeta2ToolsList
    (toolList : gmap string KubeCloudHelmInstTool)
    (initBetaOptions : InitBetaOptions)
  : M InitEvent (gmap string KubeCloudHelmInstTool * error) :=
  '(kubeVer, latestVersion) ← latestVersionLoop (Z.to_nat RetryTimes) 0 "" "";
  kubeVer ←
    (if Z.of_nat (String.length latestVersion) =? 0
     then
       let kubeVer := DefaultKubeEdgeVersion in
       emit (EvLog
         ("Failed to get the latest KubeEdge release version, will use default version:  "
          +:+ kubeVer));;
       ret kubeVer
     else ret kubeVer);
  let namespace :=
    if String.eqb (opt_Namespace initBetaOptions) "" then SystemNamespace
    else opt_Namespace initBetaOptions in
  toolVersion ← MustParse kubeVer;
  let common := {| ToolVersion := toolVersion;
                   KubeConfig := opt_KubeConfig initBetaOptions |} in
  ret (<["helm" :=
          {| common := common;
             AdvertiseAddress := opt_AdvertiseAddress initBetaOptions;
             Manifests := opt_Manifests initBetaOptions;
             Namespace := namespace;
             DryRun := opt_DryRun initBetaOptions;
             CloudcoreImage := opt_CloudcoreImage initBetaOptions;
             CloudcoreTag := opt_CloudcoreTag initBetaOptions;
             IptablesMgrImage := opt_IptablesMgrImage initBetaOptions;
             IptablesMgrTag := opt_IptablesMgrTag initBetaOptions;
             Sets := opt_Sets initBetaOptions;
             Profile := opt_Profile initBetaOptions;
             ProfileKey := "";
             Force := opt_Force initBetaOptions |}]> toolList, None).

End InitBeta.


(** ** Notions used in the statements *)

(** The part of a string before the first occurrence of a byte (the whole
    string when the byte does not occur). *)
Fixpoint BeforeByte (s : string) (c : ascii) : string :=
  match s with
  | EmptyString => EmptyString
  | String c' s' => if Ascii.eqb c' c then EmptyString else String c' (BeforeByte s' c)
  end.

(** The path of an override expression: what precedes its first [=]. *)
Definition overridePath (s : string) : string := BeforeByte s "=".

(** An override expression with an [=] in it. *)
Definition hasEq (s : string) : bool := ContainsByte s "=".

(** The warning that [rebuildFlagVals] prints for an expression it drops. *)
Definition warning `{ValueTree, !Helm} (s : string) : CloudEvent :=
  EvPrintln ("Unsported flags: " +:+ s).

(** An override expression that has an [=] has something before it. *)
Definition nonEmptyPath (s : string) : Prop :=
  hasEq s = true → overridePath s ≠ "".

(** The state of the walk of [rebuildFlagVals] after the expressions
    [done] of the sorted list: [formerValue] is the path of the last kept
    expression; the kept ones are in order, come from [done], have
    pairwise different paths, and each expression of [done] that has an
    [=] is represented by a kept one of its path that is not below it. *)
Definition dedupInv (done : list string) (formerValue : string)
    (sets : list string) : Prop :=
  (∀ init x, sets = init ++ [x] → formerValue = overridePath x) ∧
  StronglySorted String.le sets ∧
  (∀ x, x ∈ sets → x ∈ done ∧ hasEq x = true) ∧
  NoDup (overridePath <$> sets) ∧
  (∀ s, s ∈ done → hasEq s = true →
        ∃ t, t ∈ sets ∧ overridePath t = overridePath s ∧ String.le s t).

(** The options with which [RunHelmInstall] runs the upgrade: waiting
    and the timeout are set unless the installer is forced. *)
Definition upgradeOf `{Semver, VT : ValueTree, !Helm}
    (cu : KubeCloudHelmInstTool) : Upgrade :=
  {| upgrade_DryRun := DryRun cu;
     upgrade_Namespace := Namespace cu;
     upgrade_Wait := if Force cu then upgrade_Wait NewUpgrade else true;
     upgrade_Timeout :=
       if Force cu then upgrade_Timeout NewUpgrade else DefaultHelmTimeout;
     upgrade_Install := true |}.

(** The options with which it runs the install: the same policy, the
    name space created when absent, the release named as the component. *)
Definition installOf `{Semver, VT : ValueTree, !Helm}
    (cu : KubeCloudHelmInstTool) (r : Renderer) : Install :=
  {| install_DryRun := DryRun cu;
     install_Namespace := Namespace cu;
     install_Wait := if Force cu then install_Wait NewInstall else true;
     install_Timeout :=
       if Force cu then install_Timeout NewInstall else DefaultHelmTimeout;
     install_CreateNamespace := true;
     install_ReleaseName := componentName r |}.

(** A cgroup driver that the installer accepts. *)
Definition knownCGroupDriver (d : string) : Prop :=
  d = "" ∨ d = CGroupDriverSystemd ∨ d = CGroupDriverCGroupFS.

(** The configuration after the three endpoint assignments, with the host
    written as the part of the cloud-core address before its first colon. *)
Definition defaultServers (c : EdgeCoreConfig) (ku : KubeEdgeInstTool)
  : EdgeCoreConfig :=
  let host := BeforeByte (CloudCoreIP ku) ":" in
  set_TunnelServer
    (set_Quic_Server
       (set_HTTPServer c
          (if negb (String.eqb (CertPort ku) "")
           then "https://" +:+ host +:+ ":" +:+ CertPort ku
           else "https://" +:+ host +:+ ":10002"))
       (if negb (String.eqb (QuicPort ku) "")
        then host +:+ ":" +:+ QuicPort ku
        else host +:+ ":10001"))
    (if negb (String.eqb (TunnelPort ku) "")
     then host +:+ ":" +:+ TunnelPort ku
     else host +:+ ":10004").

(** An attempt that fails or returns an empty version. *)
Definition attemptFails (answer : string * error) : Prop :=
  answer.2 ≠ None ∨ answer.1 = "".

(** What one such attempt does: the call, and the line it logs when the
    call returned an error. *)
Definition attemptEvents `{VersionSource} (i : nat) : list InitEvent :=
  EvGetLatestVersion ::
  match (GetLatestVersion i).2 with
  | Some e =>
      [EvLog ("Failed to get the latest KubeEdge release version, error:  " +:+ e)]
  | None => []
  end.

(** The number of calls of [GetLatestVersion] in a trace. *)
Definition fetches (evs : list InitEvent) : nat :=
  length (List.filter
            (λ e, match e with EvGetLatestVersion => true | _ => false end) evs).

(** ** Reference environments

    Concrete instances of the interfaces above, on which the model is
    evaluated. *)

(** A [fmt] for formats without verbs, which are printed as they are. *)
Definition refFmt : Fmt := {| Errorf_format := λ format, format |}.

Definition digitValue (c : ascii) : option N :=
  let n := N_of_ascii c in
  if ((48 <=? n) && (n <=? 57))%N then Some (n - 48)%N else None.

Fixpoint parseDigits (s : string) (acc : N) : option N :=
  match s with
  | EmptyString => Some acc
  | String c s' =>
      match digitValue c with
      | Some d => parseDigits s' (10 * acc + d)%N
      | None => None
      end
  end.

(** A numeric identifier: digits, not empty, no leading zero. *)
Definition parseNumeric (s : string) : option N :=
  match s with
  | EmptyString => None
  | String "0" (String _ _) => None
  | _ => parseDigits s 0%N
  end.

(** Plain [MAJOR.MINOR.PATCH] versions, compared field by field. *)
Definition refMake (s : string) : (N * N * N) * error :=
  match Split s "." with
  | [a; b; c] =>
      match parseNumeric a, parseNumeric b, parseNumeric c with
      | Some x, Some y, Some z => ((x, y, z), None)
      | _, _, _ => ((0, 0, 0)%N, Some "Invalid character(s) found in version")
      end
  | _ => ((0, 0, 0)%N, Some "No Major.Minor.Patch elements found")
  end.

Definition refLT (v o : N * N * N) : bool :=
  let '(a, b, c) := v in
  let '(x, y, z) := o in
  ((a <? x) || ((a =? x) && ((b <? y) || ((b =? y) && (c <? z)))))%N.

Definition refSemver : Semver :=
  {| Version := N * N * N; semver_Make := refMake; Version_LT := refLT |}.

Definition refConstants : Constants :=
  {| HelmSupportedMinVersion := "v1.3.0";
     DefaultKubeEdgeVersion := "1.9.0";
     RetryTimes := 5 |}.

(** A value tree that records what was folded into it, in order. *)
Definition refValueTree : ValueTree :=
  {| Values := list string; emptyValues := [] |}.

Definition refProfileStore (validProfiles : gmap string bool)
  : @ProfileStore refValueTree :=
  {| readProfiles := λ _, (validProfiles, None);
     LoadValues := λ key _, (key, None);
     yaml_Unmarshal := λ s (m : @Values refValueTree), (m ++ [s], None);
     strvals_ParseInto := λ s (m : @Values refValueTree), (m ++ [s], None) |}.

(** A helm that answers the three calls with the given errors. *)
Definition refHelm (initErr upgradeErr installErr : error) : @Helm refValueTree :=
  {| Chart := string;
     Configuration_Init := λ _ _, initErr;
     NewUpgrade := {| upgrade_DryRun := false; upgrade_Namespace := "";
                      upgrade_Wait := false; upgrade_Timeout := 0;
                      upgrade_Install := false |};
     Upgrade_Run := λ _ _ _ _, upgradeErr;
     NewInstall := {| install_DryRun := false; install_Namespace := "";
                      install_Wait := false; install_Timeout := 0;
                      install_CreateNamespace := false;
                      install_ReleaseName := "" |};
     Install_Run := λ _ _ _, installErr;
     NewErrNoDeployedReleases := λ name, name +:+ " has no deployed releases" |}.

Definition refRenderer (initErr upgradeErr installErr : error)
  : @Renderer refValueTree (refHelm initErr upgradeErr installErr) :=
  @Build_Renderer refValueTree (refHelm initErr upgradeErr installErr)
    "cloudcore" "cloudcore-chart" ["cloudCore.image.tag=v1.9.0"].

Definition refTool (sets : list string) (profile : string)
  : @KubeCloudHelmInstTool refSemver :=
  {| common := {| ToolVersion := (1, 9, 0)%N : @Version refSemver;
                  KubeConfig := "/root/.kube/config" |};
     AdvertiseAddress := ""; Manifests := ""; Namespace := "kubeedge";
     DryRun := false; CloudcoreImage := ""; CloudcoreTag := "";
     IptablesMgrImage := ""; IptablesMgrTag := "";
     Sets := sets; Profile := profile; ProfileKey := ""; Force := false |}.

Definition refDefaultEdgeCoreConfig : EdgeCoreConfig :=
  {| EdgeHub_WebSocket_Server := "127.0.0.1:10000";
     EdgeHub_HTTPServer := "https://127.0.0.1:10002";
     EdgeHub_Quic_Server := "127.0.0.1:10001";
     EdgeHub_Token := "";
     Edged_HostnameOverride := "edge-node";
     Edged_NodeIP := "127.0.0.1";
     Edged_RuntimeType := "docker";
     Edged_CGroupDriver := "cgroupfs";
     Edged_RemoteRuntimeEndpoint := "unix:///var/run/dockershim.sock";
     Edged_RemoteImageEndpoint := "unix:///var/run/dockershim.sock";
     Edged_Taints := [];
     Edged_Labels := ∅;
     EdgeStream_TunnelServer := "127.0.0.1:10004" |}.

(** A host whose validator asks for a token and for a node address. *)
Definition refEdgeHost : EdgeHost :=
  {| KubeEdgeConfigDir := "/etc/kubeedge/config/";
     KubeEdgeEdgeCoreNewYaml := "/etc/kubeedge/config/edgecore.yaml";
     NewDefaultEdgeCoreConfig := refDefaultEdgeCoreConfig;
     os_MkdirAll := λ _, None;
     FieldError := string;
     ValidateEdgeCoreConfiguration := λ c,
       (if String.eqb (EdgeHub_Token c) "" then ["token: Required value"] else [])
       ++ (if String.eqb (Edged_NodeIP c) "" then ["nodeIP: Required value"] else []);
     ToAggregate_Errors := λ errs, errs;
     SpliceErrors := String.concat ", ";
     Write2File := λ _ _, None |}.

(** The installer given a cloud-core address and nothing else. *)
Definition onlyCloudCoreIP (addr : string) : KubeEdgeInstTool :=
  {| CertPath := ""; CloudCoreIP := addr; EdgeNodeName := "";
     HasDefaultTaint := false; EdgeNodeIP := ""; Region := "";
     ConfigPath := ""; RuntimeType := ""; RemoteRuntimeEndpoint := "";
     Token := ""; CertPort := ""; QuicPort := ""; TunnelPort := "";
     CGroupDriver := ""; TarballPath := ""; Labels := [] |}.

(** The profile store of the examples: it knows the keys [version] and
    [iptablesMgrMode]. *)
Definition refStore : @ProfileStore refValueTree :=
  refProfileStore (<["version" := true]> (<["iptablesMgrMode" := true]> ∅)).

(** An installer with a token and the given labels. *)
Definition withLabels (labels : list string) : KubeEdgeInstTool :=
  {| CertPath := ""; CloudCoreIP := "1.2.3.4:8080"; EdgeNodeName := "";
     HasDefaultTaint := false; EdgeNodeIP := ""; Region := "";
     ConfigPath := ""; RuntimeType := ""; RemoteRuntimeEndpoint := "";
     Token := "secret"; CertPort := ""; QuicPort := ""; TunnelPort := "";
     CGroupDriver := ""; TarballPath := ""; Labels := labels |}.

Definition refVersionSource (answers : nat → string * error) : VersionSource :=
  {| GetLatestVersion := answers; SystemNamespace := "kubeedge" |}.

Definition refInitBetaOptions : InitBetaOptions :=
  {| opt_KubeConfig := "/root/.kube/config"; opt_AdvertiseAddress := "";
     opt_Manifests := ""; opt_Namespace := ""; opt_DryRun := false;
     opt_CloudcoreImage := ""; opt_CloudcoreTag := "";
     opt_IptablesMgrImage := ""; opt_IptablesMgrTag := "";
     opt_Sets := []; opt_Profile := ""; opt_Force := false |}.

(** * Properties *)

(** ** Strings *)

Lemma Split_BeforeByte s c :
  ∃ t, Split s c = BeforeByte s c :: t ∧ (t = [] ↔ ContainsByte s c = false).
Proof.
  induction s as [|a s [t [IH1 IH2]]]; simpl.
  - exists []. done.
  - destruct (Ascii.eqb a c); simpl.
    + exists (Split s c). split; [done|]. rewrite IH1. split; done.
    + rewrite IH1. exists t. done.
Qed.

Lemma Split_lookup_0 s c : Split s c !! 0%nat = Some (BeforeByte s c).
Proof. destruct (Split_BeforeByte s c) as (t & -> & _). done. Qed.

Lemma Split_short s c :
  (Z.of_nat (length (Split s c)) <? 2) = negb (ContainsByte s c).
Proof.
  destruct (Split_BeforeByte s c) as (t & -> & Ht).
  destruct (ContainsByte s c); simpl.
  - destruct t; [|simpl; apply Z.ltb_ge; lia].
    destruct Ht as [Ht _]. by specialize (Ht eq_refl).
  - destruct Ht as [_ ->]; done.
Qed.

Lemma Split_lookup_1 s c :
  ContainsByte s c = true → is_Some (Split s c !! 1%nat).
Proof.
  intros Hc. destruct (Split_BeforeByte s c) as (t & -> & Ht).
  destruct t; [|by eexists].
  destruct Ht as [Ht _]. rewrite Ht in Hc; done.
Qed.

Lemma Split_lookup_1_None s c :
  ContainsByte s c = false → Split s c !! 1%nat = None.
Proof.
  intros Hc. destruct (Split_BeforeByte s c) as (t & -> & Ht).
  destruct Ht as [_ ->]; done.
Qed.


Lemma BeforeByte_split s c :
  ContainsByte s c = true →
  ∃ r, s = BeforeByte s c +:+ String c r.
Proof.
  induction s as [|a s IH]; simpl; [done|].
  destruct (Ascii.eqb_spec a c) as [->|Hne]; simpl.
  - intros _. by exists s.
  - intros [r Hr]%IH. exists r. unfold String.app in *. simpl. by f_equal.
Qed.

Lemma BeforeByte_id s c : ContainsByte s c = false → BeforeByte s c = s.
Proof.
  induction s as [|a s IH]; simpl; [done|].
  destruct (Ascii.eqb a c); simpl; [done|]. intros ?. f_equal. auto.
Qed.


Lemma index_Split_0 {E} s c (tr : list E) :
  index (Split s c) 0 tr = (Returned (BeforeByte s c), tr).
Proof. unfold index. by rewrite Split_lookup_0. Qed.

Lemma Split_app_sep key value c :
  ContainsByte key c = false →
  Split (key +:+ String c value) c = key :: Split value c.
Proof.
  unfold String.app.
  induction key as [|a key IH]; simpl.
  - intros _. by rewrite Ascii.eqb_refl.
  - destruct (Ascii.eqb a c); simpl; [done|]. intros Hk. by rewrite IH.
Qed.

Lemma ContainsByte_app_sep key value c :
  ContainsByte (key +:+ String c value) c = true.
Proof.
  unfold String.app. induction key as [|a key IH]; simpl.
  - by rewrite Ascii.eqb_refl.
  - rewrite IH. by destruct (Ascii.eqb a c).
Qed.

Lemma TrimPrefix_v suffix : TrimPrefix (String "v" suffix) "v" = suffix.
Proof. done. Qed.

Lemma String_cons_neq c s : String c s ≠ s.
Proof. induction s as [|a s IH]; [done|]. intros [= -> ?]. done. Qed.

Lemma TrimPrefix_other s c : (∀ r, s ≠ String c r) → TrimPrefix s c = s.
Proof.
  intros Hs. destruct s as [|a s]; [done|]. simpl.
  destruct (Ascii.eqb_spec a c) as [->|]; [|done]. by destruct (Hs s).
Qed.

(** ** The order of Go strings *)

Lemma String_le_cons x a y b :
  String.le (String x a) (String y b) →
  Ascii.compare x y = Lt ∨ (x = y ∧ String.le a b).
Proof.
  unfold String.le, String.leb. simpl.
  destruct (Ascii.compare x y) eqn:E; simpl; intros Hle.
  - right. apply Ascii.compare_eq_iff in E. done.
  - by left.
  - done.
Qed.

Lemma String_le_nil_r a : String.le a "" → a = "".
Proof. destruct a; [done|]. unfold String.le, String.leb. simpl. done. Qed.

Lemma Ascii_compare_Lt_asym x y :
  Ascii.compare x y = Lt → Ascii.compare y x = Lt → False.
Proof.
  intros H1 H2. rewrite Ascii.compare_antisym, H2 in H1. done.
Qed.

Lemma Ascii_compare_refl x : Ascii.compare x x = Eq.
Proof. unfold Ascii.compare. apply N.compare_refl. Qed.

(** Between two expressions of one path, in the order of Go strings,
    there are only expressions of that path. *)
Lemma overridePath_between a b c :
  String.le a b → String.le b c →
  hasEq a = true → hasEq c = true → overridePath a = overridePath c →
  hasEq b = true ∧ overridePath b = overridePath a.
Proof.
  unfold hasEq, overridePath.
  revert b c. induction a as [|x a IH]; intros b c Hab Hbc Ha Hc Hk; [done|].
  destruct c as [|z c]; [done|].
  destruct b as [|y b]; [by apply String_le_nil_r in Hab|].
  apply String_le_cons in Hab, Hbc.
  assert (x = z) as <-.
  { simpl in Hk. destruct (Ascii.eqb_spec x "="), (Ascii.eqb_spec z "=");
      simplify_eq; done. }
  assert (y = x ∧ String.le a b ∧ String.le b c) as (-> & Hab' & Hbc').
  { destruct Hab as [Hab|[-> Hab]], Hbc as [Hbc|[E Hbc]]; simplify_eq.
    - by destruct (Ascii_compare_Lt_asym _ _ Hab Hbc).
    - by rewrite Ascii_compare_refl in Hab.
    - by rewrite Ascii_compare_refl in Hbc.
    - done. }
  simpl in *. destruct (Ascii.eqb x "="); simpl in *; [done|].
  simplify_eq. destruct (IH b c) as [? ->]; done.
Qed.

Lemma sort_Strings_sorted l : StronglySorted String.le (sort_Strings l).
Proof. apply StronglySorted_merge_sort; apply _. Qed.

Lemma sort_Strings_perm l : sort_Strings l ≡ₚ l.
Proof. apply merge_sort_Permutation. Qed.

Lemma sort_Strings_unique l k : l ≡ₚ k → sort_Strings l = sort_Strings k.
Proof.
  intros Hp. apply (StronglySorted_unique String.le); try apply sort_Strings_sorted.
  by rewrite !sort_Strings_perm.
Qed.

Lemma nonEmptyPath_literal c r : c ≠ "="%char → nonEmptyPath (String c r).
Proof.
  intros Hc _. unfold overridePath. simpl.
  destruct (Ascii.eqb_spec c "="); done.
Qed.

(** ** Slices *)

Lemma assign_last {E A} (init : list A) (x s : A) (tr : list E) :
  assign (init ++ [x]) (Z.of_nat (length (init ++ [x])) - 1) s tr
  = (Returned (init ++ [s]), tr).
Proof.
  unfold assign. rewrite length_app. simpl.
  replace (Z.of_nat (length init + 1) - 1) with (Z.of_nat (length init)) by lia.
  assert ((0 <=? Z.of_nat (length init)) && (Z.of_nat (length init) <? Z.of_nat (length init + 1)) = true) as ->.
  { apply andb_true_iff. split; [apply Z.leb_le|apply Z.ltb_lt]; lia. }
  rewrite Nat2Z.id.
  replace (length init) with (length init + 0)%nat at 1 by lia.
  rewrite insert_app_r. done.
Qed.

Lemma snoc_case {A} (l : list A) : l = [] ∨ ∃ init x, l = init ++ [x].
Proof. induction l as [|x init _] using rev_ind; eauto. Qed.

Lemma assign_nil {E A} (s : A) (tr : list E) :
  assign [] (Z.of_nat (length (@nil A)) - 1) s tr = (Panicked "index out of range", tr).
Proof. done. Qed.

(** ** The cloud installer *)

Section CloudProperties.
Context `{FM : Fmt, SV : Semver, CS : Constants, VT : ValueTree,
          PS : !ProfileStore, HM : !Helm}.

Lemma dedupLoop_drop idx s rest former sets tr :
  hasEq s = false →
  dedupLoop idx (s :: rest) former sets tr
  = dedupLoop (idx + 1) rest former sets (tr ++ [warning s]).
Proof.
  intros Hs. simpl. rewrite Split_short. unfold hasEq in Hs. rewrite Hs. done.
Qed.

Lemma dedupLoop_keep idx s rest former sets tr :
  hasEq s = true →
  dedupLoop idx (s :: rest) former sets tr
  = match (if (0 <? idx) && String.eqb (overridePath s) former
           then assign sets (Z.of_nat (length sets) - 1) s
           else ret (sets ++ [s])) tr with
    | (Returned sets', tr') => dedupLoop (idx + 1) rest (overridePath s) sets' tr'
    | (Panicked msg, tr') => (Panicked msg, tr')
    end.
Proof.
  intros Hs. simpl. rewrite Split_short. unfold hasEq in Hs. rewrite Hs. simpl.
  unfold index. rewrite Split_lookup_0. done.
Qed.

Lemma dedupLoop_total rest : ∀ idx former sets tr,
  (sets = [] → former = "") →
  Forall (λ s, hasEq s = true → overridePath s ≠ "") rest →
  ∃ out tr', dedupLoop idx rest former sets tr = (Returned out, tr').
Proof.
  induction rest as [|s rest IH]; intros idx former sets tr Hf Hne.
  { by eexists _, _. }
  inv Hne. destruct (hasEq s) eqn:Hs.
  - rewrite dedupLoop_keep by done.
    destruct ((0 <? idx) && String.eqb (overridePath s) former) eqn:Hc.
    + apply andb_true_iff in Hc as [_ Hc%String.eqb_eq].
      destruct (snoc_case sets) as [->|(init & x & ->)].
      { specialize (Hf eq_refl). subst. naive_solver. }
      rewrite assign_last. apply IH; [|done].
      intros ?%app_eq_nil. naive_solver.
    + apply IH; [|done]. intros ?%app_eq_nil. naive_solver.
  - rewrite dedupLoop_drop by done. by apply IH.
Qed.

Lemma dedupLoop_inv rest : ∀ done idx former sets tr out tr',
  StronglySorted String.le (done ++ rest) →
  idx = Z.of_nat (length done) →
  dedupInv done former sets →
  dedupLoop idx rest former sets tr = (Returned out, tr') →
  (∃ former', dedupInv (done ++ rest) former' out) ∧
  tr' = tr ++ (warning <$> List.filter (λ s, negb (hasEq s)) rest).
Proof.
  induction rest as [|s rest IH]; intros done idx former sets tr out tr' Hsort -> Hinv Hrun.
  { simpl in Hrun. injection Hrun as <- <-. rewrite !app_nil_r. eauto. }
  assert (Hstep : ∀ former' sets' tr1,
    dedupInv (done ++ [s]) former' sets' →
    dedupLoop (Z.of_nat (length done) + 1) rest former' sets' tr1 = (Returned out, tr') →
    (∃ former'', dedupInv (done ++ s :: rest) former'' out) ∧
    tr' = tr1 ++ (warning <$> List.filter (λ s, negb (hasEq s)) rest)).
  { intros former' sets' tr1 Hinv' Hrun'.
    replace (done ++ s :: rest) with ((done ++ [s]) ++ rest) in * by (by rewrite <-app_assoc).
    eapply IH; [done| |done..]. rewrite length_app. simpl. lia. }
  destruct Hinv as (Hformer & Hss & Hsub & Hnd & Hcov).
  assert (Hle : ∀ x, x ∈ sets → String.le x s).
  { intros x [Hx _]%Hsub. eapply StronglySorted_app_1_elem_of; [done..|]. left. }
  destruct (hasEq s) eqn:Hs.
  - rewrite dedupLoop_keep in Hrun by done. simpl.
    rewrite Hs. simpl.
    destruct ((0 <? Z.of_nat (length done)) && String.eqb (overridePath s) former) eqn:Hc.
    + apply andb_true_iff in Hc as [_ Hc%String.eqb_eq].
      destruct (snoc_case sets) as [->|(init & x & ->)]; [done|].
      rewrite assign_last in Hrun.
      pose proof (Hformer _ _ eq_refl) as Hfx.
      eapply Hstep; [|done].
      apply StronglySorted_app in Hss as (Hix & Hinit & _).
      split_and!.
      * intros ?? [-> [= ->]]%app_inj_tail. done.
      * apply StronglySorted_app_2; [|done|repeat constructor].
        intros x1 x2 Hx1 ->%list_elem_of_singleton.
        apply Hle. set_solver.
      * intros y [Hy| ->%list_elem_of_singleton]%elem_of_app.
        -- destruct (Hsub y) as [??]; [set_solver|]. set_solver.
        -- set_solver.
      * rewrite fmap_app in *. simpl in *. congruence.
      * intros s' [Hs'| ->%list_elem_of_singleton]%elem_of_app Hs'eq.
        -- destruct (Hcov s' Hs' Hs'eq) as (t & [Ht| ->%list_elem_of_singleton]%elem_of_app & Hk & Hst).
           ++ exists t. set_solver.
           ++ exists s. split_and!; [set_solver|congruence|].
              etrans; [done|]. apply Hle. set_solver.
        -- exists s. split_and!; [set_solver|done|done].
    + unfold ret, mret, M_ret in Hrun.
      eapply Hstep; [|done].
      split_and!.
      * intros ?? [-> [= ->]]%app_inj_tail. done.
      * apply StronglySorted_app_2; [|done|repeat constructor].
        intros x1 x2 Hx1 ->%list_elem_of_singleton. by apply Hle.
      * intros y [Hy| ->%list_elem_of_singleton]%elem_of_app.
        -- destruct (Hsub y) as [??]; [set_solver|]. set_solver.
        -- set_solver.
      * rewrite fmap_app. simpl. apply NoDup_app. split_and!; [done| |apply NoDup_singleton].
        intros k (t & -> & Ht)%list_elem_of_fmap Hk%list_elem_of_singleton.
        destruct (snoc_case sets) as [->|(init & x & ->)]; [set_solver|].
        pose proof (Hformer _ _ eq_refl) as Hfx.
        assert (String.le t x) as Htx.
        { apply elem_of_app in Ht as [Ht| ->%list_elem_of_singleton]; [|done].
          eapply StronglySorted_app_1_elem_of; [done..|]. set_solver. }
        destruct (overridePath_between t x s) as [_ Hxk]; try done.
        { apply Hle. set_solver. }
        { apply Hsub. done. }
        apply andb_false_iff in Hc as [Hc|Hc%String.eqb_neq].
        -- apply Z.ltb_ge in Hc. destruct done; [|simpl in Hc; lia].
           destruct (Hsub x) as [? _]; set_solver.
        -- congruence.
      * intros s' [Hs'| ->%list_elem_of_singleton]%elem_of_app Hs'eq.
        -- destruct (Hcov s' Hs' Hs'eq) as (t & Ht & Hk & Hst).
           exists t. set_solver.
        -- exists s. split_and!; [set_solver|done|done].
  - rewrite dedupLoop_drop in Hrun by done. simpl. rewrite Hs. simpl.
    destruct (Hstep former sets (tr ++ [warning s])) as [? ->]; [|done|].
    + split_and!; [done|done| |done|].
      * intros y Hy. destruct (Hsub y Hy). set_solver.
      * intros s' [Hs'| ->%list_elem_of_singleton]%elem_of_app Hs'eq; [|congruence].
        by apply Hcov.
    + split; [done|]. by rewrite <-app_assoc.
Qed.

Lemma advertiseSets_nonEmptyPath addrs : ∀ idx sets,
  Forall nonEmptyPath sets → Forall nonEmptyPath (advertiseSets idx addrs sets).
Proof.
  induction addrs as [|a addrs IH]; intros idx sets Hs; simpl; [done|].
  apply IH. apply Forall_app. split; [done|].
  constructor; [|done]. by apply nonEmptyPath_literal.
Qed.

Lemma combineFlagVals_nonEmptyPath cu :
  Forall nonEmptyPath (Sets cu) → Forall nonEmptyPath (combineFlagVals cu).
Proof.
  intros Hs. unfold combineFlagVals.
  repeat match goal with
  | |- Forall _ (if ?b then _ else _) => destruct b
  | |- Forall _ (_ ++ [_]) => apply Forall_app; split; [|constructor; [by apply nonEmptyPath_literal|done]]
  | |- Forall _ (advertiseSets _ _ _) => apply advertiseSets_nonEmptyPath
  end; done.
Qed.

(** C2, amended. When no override of the installer starts with [=],
    [rebuildFlagVals] returns; it prints one warning for each expression
    without [=], in sorted order, and keeps none of them; the overrides it
    keeps are in the ascending order of Go strings, taken as whole
    expressions, come from the input, have pairwise different paths, and
    for each input expression with an [=] the kept one of its path is not
    below it (the last in sort order wins). For the three expressions
    [a.b=1], [a.b=2], [c=3] in any order the result is [a.b=2], [c=3]. *)
Theorem rebuildFlagVals_merges cu tr :
  Forall nonEmptyPath (Sets cu) →
  ∃ out,
    rebuildFlagVals cu tr
    = (Returned (set_Sets cu out, None),
       tr ++ (warning <$> List.filter (λ s, negb (hasEq s))
                            (sort_Strings (combineFlagVals cu))))
    ∧ StronglySorted String.le out
    ∧ (∀ s, s ∈ out → s ∈ combineFlagVals cu ∧ hasEq s = true)
    ∧ NoDup (overridePath <$> out)
    ∧ (∀ s, s ∈ combineFlagVals cu → hasEq s = true →
         ∃ t, t ∈ out ∧ overridePath t = overridePath s ∧ String.le s t)
    ∧ (combineFlagVals cu ≡ₚ ["a.b=1"; "a.b=2"; "c=3"] → out = ["a.b=2"; "c=3"]).
Proof.
  intros Hne.
  set (l := combineFlagVals cu).
  assert (Forall nonEmptyPath (sort_Strings l)) as Hne'.
  { rewrite sort_Strings_perm. by apply combineFlagVals_nonEmptyPath. }
  destruct (dedupLoop_total (sort_Strings l) 0 "" [] tr) as (out & tr' & Hrun); [done..|].
  destruct (dedupLoop_inv (sort_Strings l) [] 0 "" [] tr out tr') as [[former Hinv] ->];
    [apply sort_Strings_sorted|done| |done|].
  { split_and!; [by intros [] ? [=]|constructor|set_solver|constructor|set_solver]. }
  simpl in Hinv. destruct Hinv as (_ & Hss & Hsub & Hnd & Hcov).
  exists out. split_and!; try done.
  - unfold rebuildFlagVals. simpl. fold l. unfold mbind, M_bind. by rewrite Hrun.
  - intros s Hs. destruct (Hsub s Hs) as [Hin ?]. by rewrite sort_Strings_perm in Hin.
  - intros s Hs. apply Hcov. by rewrite sort_Strings_perm.
  - intros Hp. rewrite (sort_Strings_unique _ _ Hp) in Hrun.
    vm_compute in Hrun. congruence.
Qed.
Lemma rebuildFlagVals_total cu tr :
  Forall nonEmptyPath (Sets cu) →
  ∃ out tr', rebuildFlagVals cu tr = (Returned (set_Sets cu out, None), tr').
Proof.
  intros Hne.
  destruct (dedupLoop_total (sort_Strings (combineFlagVals cu)) 0 "" [] tr)
    as (out & tr' & Hrun); [done| |].
  { rewrite sort_Strings_perm. by apply combineFlagVals_nonEmptyPath. }
  exists out, tr'. unfold rebuildFlagVals. simpl. unfold mbind, M_bind. by rewrite Hrun.
Qed.

(** C4. For the profile key [version]: a value with the prefix [v] is
    parsed without the prefix as a semantic version and compared with the
    minimum supported one; below it, [handleProfile] fails with the
    unsupported-version error; otherwise it appends exactly two
    overrides, which set [cloudCore.image.tag] and
    [iptablesManager.image.tag] to [v] followed by the version. A value
    without the prefix is not checked: the same two tags are set to the
    value as it is. *)
Theorem handleProfile_version cu profileValue :
  ProfileKey cu = VersionProfileKey →
  (∀ suffix version,
     profileValue = String "v" suffix →
     semver_Make suffix = (version, None) →
     let minVersion := (semver_Make (TrimPrefix HelmSupportedMinVersion "v")).1 in
     (Version_LT version minVersion = true →
      handleProfile cu profileValue
      = (cu, Some ("the given version " +:+ profileValue +:+
           " is not supported, you can try binary deployments with this version")))
     ∧ (Version_LT version minVersion = false →
        handleProfile cu profileValue
        = (set_Sets cu (Sets cu ++ ["cloudCore.image.tag=v" +:+ suffix;
                                     "iptablesManager.image.tag=v" +:+ suffix]),
           None)))
  ∧ ((∀ suffix, profileValue ≠ String "v" suffix) →
     handleProfile cu profileValue
     = (set_Sets cu (Sets cu ++ ["cloudCore.image.tag=" +:+ profileValue;
                                  "iptablesManager.image.tag=" +:+ profileValue]),
        None)).
Proof.
  intros Hkey. unfold handleProfile. rewrite Hkey, String.eqb_refl. split.
  - intros suffix version -> Hmake. rewrite TrimPrefix_v.
    assert (String.eqb (String "v" suffix) suffix = false) as ->.
    { apply String.eqb_neq, String_cons_neq. }
    simpl. rewrite Hmake.
    destruct (semver_Make (TrimPrefix HelmSupportedMinVersion "v")) as [minVersion e].
    simpl. split; intros ->; [done|].
    unfold set_Sets. simpl. rewrite <-app_assoc. done.
  - intros Hv. rewrite TrimPrefix_other by done. rewrite String.eqb_refl. simpl.
    unfold set_Sets. simpl. rewrite <-app_assoc. done.
Qed.

(** For the key [iptablesMgrMode], a value other than the two modes
    leaves the installer as it is and gives no error. *)
Lemma handleProfile_mode_other cu profileValue :
  ProfileKey cu = IptablesMgrProfileKey →
  profileValue ≠ InternalIptablesMgrMode →
  profileValue ≠ ExternalIptablesMgrMode →
  handleProfile cu profileValue = (cu, None).
Proof.
  intros Hkey H1%String.eqb_neq H2%String.eqb_neq.
  unfold handleProfile. rewrite Hkey. simpl. by rewrite H1, H2.
Qed.

Lemma handleProfile_Sets cu profileValue cu' :
  handleProfile cu profileValue = (cu', None) →
  Forall nonEmptyPath (Sets cu) →
  Forall nonEmptyPath (Sets cu') ∧ ProfileKey cu' = ProfileKey cu
  ∧ Profile cu' = Profile cu.
Proof.
  unfold handleProfile. intros Hh Hne.
  repeat match type of Hh with
  | (if ?b then _ else _) = _ => destruct b
  | (let '(_, _) := ?x in _) = _ => destruct x
  | match ?x with _ => _ end = _ => destruct x
  end; simplify_eq; simpl; split_and!; try done;
  repeat (apply Forall_app; split; [|constructor; [by apply nonEmptyPath_literal|done]]); done.
Qed.

(** C7, amended. A profile expression that is not empty and has no [=]
    makes [BeforeRenderer] fail with the invalid-profile error. For an
    expression that is not empty and has an [=], when the store returns
    a set of keys that lacks the key, [checkProfile] fails with the
    unsupported-profile error, which [BeforeRenderer] returns as the
    invalid-profile error of the expression. The empty expression is not
    rejected: it is replaced by the version profile of the minimum
    supported version, and resolution goes on with that. *)
Theorem BeforeRenderer_rejects cu tr :
  (Profile cu ≠ "" → hasEq (Profile cu) = false →
   BeforeRenderer cu tr
   = (Returned (cu, Some ("invalid profile " +:+ Profile cu)), tr))
  ∧ (∀ validProfiles,
       Profile cu ≠ "" → hasEq (Profile cu) = true →
       readProfiles DefaultHelmRoot = (validProfiles, None) →
       default false (validProfiles !! overridePath (Profile cu)) = false →
       let cu' := set_ProfileKey cu (overridePath (Profile cu)) in
       checkProfile cu'
       = Some (Errorf_format ("unsupported profile " +:+ Profile cu))
       ∧ BeforeRenderer cu tr
         = (Returned (cu', Some ("invalid profile " +:+ Profile cu)), tr))
  ∧ (Profile cu = "" →
     BeforeRenderer cu tr
     = BeforeRenderer
         (set_Profile cu (VersionProfileKey +:+ "=" +:+ HelmSupportedMinVersion)) tr).
Proof.
  split_and!.
  - intros Hne%String.eqb_neq Heq. unfold BeforeRenderer. rewrite Hne.
    rewrite Split_short. unfold hasEq in Heq. rewrite Heq. done.
  - intros validProfiles Hne%String.eqb_neq Heq Hread Hkey cu'.
    assert (checkProfile cu'
            = Some (Errorf_format ("unsupported profile " +:+ Profile cu))) as Hcheck.
    { unfold checkProfile. rewrite Hread. subst cu'. simpl. by rewrite Hkey. }
    split; [done|].
    unfold BeforeRenderer. rewrite Hne. rewrite Split_short.
    unfold hasEq in Heq. rewrite Heq. cbn [negb].
    unfold mbind, M_bind. rewrite index_Split_0. unfold cu', overridePath in Hcheck. by rewrite Hcheck.
  - intros Hp. unfold BeforeRenderer at 1. rewrite Hp. simpl.
    unfold BeforeRenderer at 1. simpl. done.
Qed.
Lemma handleProfile_succeeds cu profileValue :
  (ProfileKey cu = VersionProfileKey →
   ∀ suffix, profileValue = String "v" suffix →
     ∃ version, semver_Make suffix = (version, None)
       ∧ Version_LT version
           (semver_Make (TrimPrefix HelmSupportedMinVersion "v")).1 = false) →
  ∃ cu', handleProfile cu profileValue = (cu', None).
Proof.
  intros Hv. unfold handleProfile.
  destruct (String.eqb_spec (ProfileKey cu) VersionProfileKey) as [Hkey|_].
  - specialize (Hv Hkey).
    destruct (String.eqb_spec profileValue (TrimPrefix profileValue "v")) as [_|Hne];
      simpl; [by eexists|].
    destruct profileValue as [|c suffix]; [done|]. simpl in *.
    destruct (Ascii.eqb_spec c "v") as [->|]; [|done].
    destruct (Hv suffix eq_refl) as (version & -> & Hlt).
    destruct (semver_Make (TrimPrefix HelmSupportedMinVersion "v")) as [minVersion e].
    simpl in Hlt. rewrite Hlt. by eexists.
  - repeat match goal with |- context [if ?b then _ else _] => destruct b end;
      by eexists.
Qed.

(** C8, amended. For a profile [key=value] (no [=] in the key or in the
    value) whose key the store knows, with overrides none of which starts
    with [=]: unless the key is [version] and the value has the prefix
    [v] and does not parse or lies below the minimum supported version,
    [BeforeRenderer] returns no error and sets the profile key; and then
    [combineProfVals] returns a value tree and no error whenever the
    values of the key load, unmarshal, and every merged override parses
    into them. *)
Theorem resolve_known_key cu tr validProfiles key value :
  Profile cu = key +:+ String "=" value →
  hasEq key = false → hasEq value = false →
  readProfiles DefaultHelmRoot = (validProfiles, None) →
  validProfiles !! key = Some true →
  (key = VersionProfileKey →
   ∀ suffix, value = String "v" suffix →
     ∃ version, semver_Make suffix = (version, None)
       ∧ Version_LT version
           (semver_Make (TrimPrefix HelmSupportedMinVersion "v")).1 = false) →
  Forall nonEmptyPath (Sets cu) →
  ∃ cu' tr',
    BeforeRenderer cu tr = (Returned (cu', None), tr')
    ∧ ProfileKey cu' = key
    ∧ ∀ raw m m',
        LoadValues key DefaultHelmRoot = (raw, None) →
        yaml_Unmarshal raw emptyValues = (m, None) →
        parseSets (Sets cu') m = (m', None) →
        combineProfVals cu' = (Some m', None).
Proof.
  intros Hprof Hkey Hval Hread Hvalid Hver Hne.
  assert (String.eqb (Profile cu) "" = false) as Hnonempty.
  { apply String.eqb_neq. rewrite Hprof. unfold String.app.
    destruct key; done. }
  assert (Split (Profile cu) "=" = [key; value]) as Hsplit.
  { rewrite Hprof, Split_app_sep by done.
    destruct (Split_BeforeByte value "=") as (t & -> & [_ Ht]).
    rewrite Ht by done. by rewrite BeforeByte_id. }
  set (cu1 := set_ProfileKey cu key).
  destruct (handleProfile_succeeds cu1 value) as [cu2 Hhandle]; [done|].
  destruct (handleProfile_Sets _ _ _ Hhandle Hne) as (Hne2 & Hkey2 & _).
  destruct (rebuildFlagVals_total cu2 tr Hne2) as (out & tr' & Hrun).
  exists (set_Sets cu2 out), tr'. split_and!.
  - unfold BeforeRenderer. rewrite Hnonempty, Hsplit. simpl.
    unfold mbind, M_bind, index. simpl. fold cu1.
    assert (checkProfile cu1 = None) as ->.
    { unfold checkProfile. rewrite Hread. simpl. by rewrite Hvalid. }
    rewrite Hhandle, Hrun. done.
  - simpl. by rewrite Hkey2.
  - intros raw m m' Hload Hyaml Hparse. unfold combineProfVals.
    simpl in *. rewrite Hkey2. simpl. by rewrite Hload, Hyaml, Hparse.
Qed.

(** C1, amended. When the helm configuration does not initialise,
    [RunHelmInstall] returns that error and attempts neither an upgrade
    nor an install. When it does, the upgrade is attempted first; if it
    succeeds nothing else happens; if its error is exactly the one of
    [NewErrNoDeployedReleases] for the component name, the install runs
    once, with the same chart and value tree, creating the name space,
    and its error, if any, is the result; any other upgrade error is
    returned, with no install. *)
Theorem RunHelmInstall_protocol cu r tr :
  let init := EvInit (KubeConfig (common cu)) (Namespace cu) in
  let upgrade :=
    EvUpgrade (upgradeOf cu) (componentName r) (chart r) (profileValsMap r) in
  let install := EvInstall (installOf cu r) (chart r) (profileValsMap r) in
  let upgradeErr :=
    Upgrade_Run (upgradeOf cu) (componentName r) (chart r) (profileValsMap r) in
  (∀ e, Configuration_Init (KubeConfig (common cu)) (Namespace cu) = Some e →
        RunHelmInstall cu r tr = (Returned (Some e), tr ++ [init]))
  ∧ (Configuration_Init (KubeConfig (common cu)) (Namespace cu) = None →
     (upgradeErr = None →
      RunHelmInstall cu r tr = (Returned None, tr ++ [init; upgrade]))
     ∧ (upgradeErr = Some (NewErrNoDeployedReleases (componentName r)) →
        RunHelmInstall cu r tr
        = (Returned (Install_Run (installOf cu r) (chart r) (profileValsMap r)),
           tr ++ [init; upgrade; install]))
     ∧ (∀ e, upgradeErr = Some e →
             e ≠ NewErrNoDeployedReleases (componentName r) →
             RunHelmInstall cu r tr = (Returned (Some e), tr ++ [init; upgrade]))).
Proof.
  intros init upgrade install upgradeErr.
  assert (Hu : ∀ (cu : KubeCloudHelmInstTool), 
    {| upgrade_DryRun := DryRun cu; upgrade_Namespace := Namespace cu;
       upgrade_Wait := if negb (Force cu) then DefaultHelmWait else upgrade_Wait NewUpgrade;
       upgrade_Timeout := if negb (Force cu) then DefaultHelmTimeout else upgrade_Timeout NewUpgrade;
       upgrade_Install := DefaultHelmInstall |} = upgradeOf cu).
  { intros c. unfold upgradeOf. by destruct (Force c). }
  assert (Hi : ∀ (cu : KubeCloudHelmInstTool),
    {| install_DryRun := DryRun cu; install_Namespace := Namespace cu;
       install_Wait := if negb (Force cu) then DefaultHelmWait else install_Wait NewInstall;
       install_Timeout := if negb (Force cu) then DefaultHelmTimeout else install_Timeout NewInstall;
       install_CreateNamespace := DefaultHelmCreateNs;
       install_ReleaseName := componentName r |} = installOf cu r).
  { intros c. unfold installOf. by destruct (Force c). }
  unfold RunHelmInstall. rewrite Hu, Hi. fold upgradeErr.
  unfold mbind, M_bind, emit, ret, mret, M_ret. split.
  - intros e ->. done.
  - intros ->. split_and!.
    + intros ->. by rewrite <-app_assoc.
    + intros ->. rewrite String.eqb_refl.
      destruct (Install_Run _ _ _); by rewrite <-!app_assoc.
    + intros e -> Hne%String.eqb_neq. rewrite Hne. by rewrite <-app_assoc.
Qed.
End CloudProperties.

(** ** The edge installer *)

Section EdgeProperties.
Context `{EH : EdgeHost}.

Lemma setServers_run c ku tr :
  setServers c ku tr = (Returned (defaultServers c ku), tr).
Proof.
  unfold setServers, defaultServers, mbind, M_bind.
  rewrite !index_Split_0.
  by destruct (negb (String.eqb (CertPort ku) "")),
    (negb (String.eqb (QuicPort ku) "")), (negb (String.eqb (TunnelPort ku) "")).
Qed.

Lemma labelsLoop_total labels : ∀ m tr,
  Forall (λ l, hasEq l = true) labels →
  ∃ m', labelsLoop labels m tr = (Returned m', tr).
Proof.
  induction labels as [|l labels IH]; intros m tr Hl; [by eexists|].
  inv Hl. simpl. unfold mbind, M_bind. rewrite index_Split_0.
  destruct (Split_lookup_1 l "=") as [v Hv]; [done|].
  unfold index. rewrite Hv. simpl. by apply IH.
Qed.

Lemma labelsLoop_panics labels : ∀ m tr token,
  token ∈ labels → hasEq token = false →
  labelsLoop labels m tr = (Panicked "index out of range", tr).
Proof.
  induction labels as [|l labels IH]; intros m tr token Hin Htok; [by inv Hin|].
  simpl. unfold mbind, M_bind. rewrite index_Split_0.
  unfold index. destruct (hasEq l) eqn:Hl.
  - destruct (Split_lookup_1 l "=") as [v ->]; [done|]. simpl.
    inv Hin; [congruence|]. by eapply IH.
  - by rewrite Split_lookup_1_None.
Qed.

Lemma setLabels_total c ku tr :
  Forall (λ l, hasEq l = true) (Labels ku) →
  ∃ c', setLabels c ku tr = (Returned c', tr)
    ∧ EdgeHub_HTTPServer c' = EdgeHub_HTTPServer c
    ∧ EdgeHub_Quic_Server c' = EdgeHub_Quic_Server c
    ∧ EdgeStream_TunnelServer c' = EdgeStream_TunnelServer c.
Proof.
  intros Hl. unfold setLabels. destruct (1 <=? _); [|by eexists].
  unfold mbind, M_bind.
  destruct (labelsLoop_total (Labels ku) ∅ tr Hl) as [m ->]. by eexists.
Qed.

Lemma setLabels_panics c ku tr token :
  token ∈ Labels ku → hasEq token = false →
  setLabels c ku tr = (Panicked "index out of range", tr).
Proof.
  intros Hin Htok. unfold setLabels.
  destruct (Labels ku) as [|l labels] eqn:E; [by inv Hin|].
  assert ((1 <=? Z.of_nat (length (l :: labels))) = true) as ->.
  { apply Z.leb_le. simpl. lia. }
  unfold mbind, M_bind. by rewrite (labelsLoop_panics _ _ _ token).
Qed.

Lemma labelsLoop_pure labels : ∀ m,
  ∃ o, ∀ tr, labelsLoop labels m tr = (o, tr).
Proof.
  induction labels as [|l labels IH]; intros m; [by eexists|].
  simpl. unfold mbind, M_bind, index. rewrite Split_lookup_0. simpl.
  destruct (Split l "=" !! 1%nat) as [v|]; simpl; [apply IH|by eexists].
Qed.

Lemma setLabels_pure c ku : ∃ o, ∀ tr, setLabels c ku tr = (o, tr).
Proof.
  unfold setLabels. destruct (1 <=? _); [|by eexists].
  unfold mbind, M_bind. destruct (labelsLoop_pure (Labels ku) ∅) as [[m|msg] Ho].
  - exists (Returned (set_Labels c m)). intros tr. by rewrite Ho.
  - exists (Panicked msg). intros tr. by rewrite Ho.
Qed.

Lemma setCGroupDriver_known c ku :
  knownCGroupDriver (CGroupDriver ku) →
  ∃ c', setCGroupDriver c ku = inl c'.
Proof.
  unfold setCGroupDriver. intros [->|[->| ->]]; by eexists.
Qed.


(** The assembly does nothing to the outside: its outcome does not depend
    on the trace, which it leaves as it is. *)
Lemma assembleEdgeCoreConfig_pure ku :
  ∃ o, ∀ tr, assembleEdgeCoreConfig ku tr = (o, tr).
Proof.
  unfold assembleEdgeCoreConfig.
  destruct (setCGroupDriver _ _) as [c|e]; [|by eexists].
  unfold mbind, M_bind. setoid_rewrite setServers_run.
  destruct (setLabels_pure (setTaints (defaultServers (set_runtime_token c ku) ku) ku) ku)
    as [[c'|msg] Ho].
  - exists (Returned (inl c')). intros tr. by rewrite Ho.
  - exists (Panicked msg). intros tr. by rewrite Ho.
Qed.

Lemma assembleEdgeCoreConfig_JoinHostPort_pure ku :
  ∃ o, ∀ tr, assembleEdgeCoreConfig_JoinHostPort ku tr = (o, tr).
Proof.
  unfold assembleEdgeCoreConfig_JoinHostPort.
  unfold mbind, M_bind. setoid_rewrite setServers_run.
  destruct (setCGroupDriver _ _) as [c|e]; [|by eexists].
  setoid_rewrite index_Split_0.
  match goal with |- context [setLabels ?c ku] =>
    destruct (setLabels_pure c ku) as [[c'|msg] Ho] end.
  - exists (Returned (inl c')). intros tr. by rewrite Ho.
  - exists (Panicked msg). intros tr. by rewrite Ho.
Qed.

Lemma validateAndWrite_invalid c tr :
  ValidateEdgeCoreConfiguration c ≠ [] →
  validateAndWrite c tr
  = (Returned (Some (SpliceErrors (ToAggregate_Errors
       (ValidateEdgeCoreConfiguration c)))), tr).
Proof.
  intros Hv. unfold validateAndWrite.
  destruct (ValidateEdgeCoreConfiguration c); [done|]. done.
Qed.

Lemma validateAndWrite_trace c tr o tr' :
  validateAndWrite c tr = (o, tr') →
  tr' = tr
  ∨ (ValidateEdgeCoreConfiguration c = []
     ∧ o = Returned (Write2File KubeEdgeEdgeCoreNewYaml c)
     ∧ tr' = tr ++ [EvWrite2File KubeEdgeEdgeCoreNewYaml c]).
Proof.
  unfold validateAndWrite.
  destruct (ValidateEdgeCoreConfiguration c); simpl.
  - unfold mbind, M_bind, emit, ret, mret, M_ret. intros [= <- <-]. by right.
  - intros [= <- <-]. by left.
Qed.

(** C6. The validator runs on the assembled configuration before anything
    is written, in both revisions: when it reports errors, the function
    returns one error, [SpliceErrors] of all the validator's messages, and
    the only effect is the creation of the directory; and whatever the
    run, a write happens at most once, after the directory creation, and
    what is written is the assembled configuration, on which the validator
    reported nothing. *)
Theorem invalid_config_never_written ku tr :
  let mkdir := EvMkdirAll KubeEdgeConfigDir in
  (∀ c, os_MkdirAll KubeEdgeConfigDir = None →
        ValidateEdgeCoreConfiguration c ≠ [] →
        let err := Some (SpliceErrors (ToAggregate_Errors
                     (ValidateEdgeCoreConfiguration c))) in
        (assembleEdgeCoreConfig ku tr = (Returned (inl c), tr) →
         createEdgeConfigFiles ku tr = (Returned err, tr ++ [mkdir]))
        ∧ (assembleEdgeCoreConfig_JoinHostPort ku tr = (Returned (inl c), tr) →
           createEdgeConfigFiles_JoinHostPort ku tr = (Returned err, tr ++ [mkdir])))
  ∧ (∀ o tr',
       createEdgeConfigFiles ku tr = (o, tr') →
       tr' = tr ++ [mkdir]
       ∨ ∃ c, assembleEdgeCoreConfig ku tr = (Returned (inl c), tr)
              ∧ ValidateEdgeCoreConfiguration c = []
              ∧ tr' = tr ++ [mkdir; EvWrite2File KubeEdgeEdgeCoreNewYaml c])
  ∧ (∀ o tr',
       createEdgeConfigFiles_JoinHostPort ku tr = (o, tr') →
       tr' = tr ++ [mkdir]
       ∨ ∃ c, assembleEdgeCoreConfig_JoinHostPort ku tr = (Returned (inl c), tr)
              ∧ ValidateEdgeCoreConfiguration c = []
              ∧ tr' = tr ++ [mkdir; EvWrite2File KubeEdgeEdgeCoreNewYaml c]).
Proof.
  intros mkdir. split_and!.
  - intros c Hmk Hv err. split; intros Ha.
    + destruct (assembleEdgeCoreConfig_pure ku) as [o Ho].
      unfold createEdgeConfigFiles, mbind, M_bind, emit. rewrite Hmk.
      rewrite Ho in Ha. rewrite Ho. simplify_eq. by apply validateAndWrite_invalid.
    + destruct (assembleEdgeCoreConfig_JoinHostPort_pure ku) as [o Ho].
      unfold createEdgeConfigFiles_JoinHostPort, mbind, M_bind, emit. rewrite Hmk.
      rewrite Ho in Ha. rewrite Ho. simplify_eq. by apply validateAndWrite_invalid.
  - intros o tr' Hrun.
    destruct (assembleEdgeCoreConfig_pure ku) as [oa Ho].
    unfold createEdgeConfigFiles, mbind, M_bind, emit, ret, mret, M_ret in Hrun.
    destruct (os_MkdirAll KubeEdgeConfigDir); [left; by simplify_eq|].
    rewrite Ho in Hrun. destruct oa as [[c|e]|msg]; [|left; by simplify_eq..].
    apply validateAndWrite_trace in Hrun as [->|(Hv & _ & ->)]; [by left|].
    right. exists c. by rewrite Ho, <-app_assoc.
  - intros o tr' Hrun.
    destruct (assembleEdgeCoreConfig_JoinHostPort_pure ku) as [oa Ho].
    unfold createEdgeConfigFiles_JoinHostPort, mbind, M_bind, emit, ret, mret, M_ret in Hrun.
    destruct (os_MkdirAll KubeEdgeConfigDir); [left; by simplify_eq|].
    rewrite Ho in Hrun. destruct oa as [[c|e]|msg]; [|left; by simplify_eq..].
    apply validateAndWrite_trace in Hrun as [->|(Hv & _ & ->)]; [by left|].
    right. exists c. by rewrite Ho, <-app_assoc.
Qed.





(** C10. When every label has an [=], [createEdgeConfigFiles] returns,
    in both revisions. For a label without one, the split has no second
    element, and both revisions panic on reading it, after the directory
    creation, as soon as the run reaches the labels, that is when the
    directory creation succeeds and the cgroup driver is empty or
    known. *)
Theorem createEdgeConfigFiles_needs_eq_in_labels ku tr :
  let mkdir := EvMkdirAll KubeEdgeConfigDir in
  (Forall (λ label, hasEq label = true) (Labels ku) →
   (∃ err tr', createEdgeConfigFiles ku tr = (Returned err, tr'))
   ∧ (∃ err tr', createEdgeConfigFiles_JoinHostPort ku tr = (Returned err, tr')))
  ∧ (∀ label, label ∈ Labels ku → hasEq label = false →
       Split label "=" !! 1%nat = None
       ∧ (os_MkdirAll KubeEdgeConfigDir = None →
          knownCGroupDriver (CGroupDriver ku) →
          createEdgeConfigFiles ku tr
          = (Panicked "index out of range", tr ++ [mkdir])
          ∧ createEdgeConfigFiles_JoinHostPort ku tr
            = (Panicked "index out of range", tr ++ [mkdir]))).
Proof.
  intros mkdir. split.
  - intros Hl. split.
    + unfold createEdgeConfigFiles, assembleEdgeCoreConfig, mbind, M_bind, emit.
      destruct (os_MkdirAll _); [by eexists _, _|].
      destruct (setCGroupDriver _ _) as [c1|e]; [|by eexists _, _].
      rewrite setServers_run.
      match goal with |- context [setLabels ?c ku ?t] =>
        destruct (setLabels_total c ku t Hl) as (c2 & -> & _) end.
      unfold validateAndWrite, mbind, M_bind, emit, ret, mret, M_ret. cbn beta iota.
      match goal with |- context [if ?b then _ else _] => destruct b end;
        by eexists _, _.
    + unfold createEdgeConfigFiles_JoinHostPort,
        assembleEdgeCoreConfig_JoinHostPort, mbind, M_bind, emit.
      destruct (os_MkdirAll _); [by eexists _, _|].
      rewrite setServers_run.
      destruct (setCGroupDriver _ _) as [c1|e]; [|by eexists _, _].
      rewrite index_Split_0.
      match goal with |- context [setLabels ?c ku ?t] =>
        destruct (setLabels_total c ku t Hl) as (c2 & -> & _) end.
      unfold validateAndWrite, mbind, M_bind, emit, ret, mret, M_ret. cbn beta iota.
      match goal with |- context [if ?b then _ else _] => destruct b end;
        by eexists _, _.
  - intros label Hin Hlab. split; [by apply Split_lookup_1_None|].
    intros Hmk Hcg. split.
    + unfold createEdgeConfigFiles, assembleEdgeCoreConfig, mbind, M_bind, emit.
      rewrite Hmk.
      destruct (setCGroupDriver_known (set_identity NewDefaultEdgeCoreConfig ku) ku Hcg)
        as [c1 ->].
      rewrite setServers_run.
      by rewrite (setLabels_panics _ _ _ label).
    + unfold createEdgeConfigFiles_JoinHostPort,
        assembleEdgeCoreConfig_JoinHostPort, mbind, M_bind, emit.
      rewrite Hmk, setServers_run.
      match goal with |- context [setCGroupDriver ?c ku] =>
        destruct (setCGroupDriver_known c ku Hcg) as [c1 ->] end.
      rewrite index_Split_0.
      by rewrite (setLabels_panics _ _ _ label).
Qed.
End EdgeProperties.

(** ** Version discovery *)

Section InitBetaProperties.
Context `{SV : Semver, CS : Constants, VS : VersionSource}.

Lemma fetches_app evs1 evs2 : fetches (evs1 ++ evs2) = (fetches evs1 + fetches evs2)%nat.
Proof. unfold fetches. by rewrite List.filter_app, length_app. Qed.

Lemma latestVersionLoop_all_fail n : ∀ i kubeVer latestVersion tr,
  (∀ j, (i ≤ j < i + n)%nat → attemptFails (GetLatestVersion j)) →
  latestVersionLoop n i kubeVer latestVersion tr
  = (Returned (kubeVer, latestVersion), tr ++ flat_map attemptEvents (seq i n)).
Proof.
  induction n as [|n IH]; intros i kubeVer latestVersion tr Hfail.
  { simpl. by rewrite app_nil_r. }
  simpl. unfold mbind, M_bind, emit. unfold attemptEvents at 1.
  destruct (Hfail i) as [Herr|Hempty]; [lia|..];
    destruct (GetLatestVersion i) as [version [e|]] eqn:Hi; simpl in *; try done.
  - rewrite IH by (intros; apply Hfail; lia). by rewrite <-!app_assoc.
  - rewrite IH by (intros; apply Hfail; lia). by rewrite <-!app_assoc.
  - subst. simpl. rewrite IH by (intros; apply Hfail; lia). by rewrite <-!app_assoc.
Qed.

Lemma latestVersionLoop_bound n : ∀ i kubeVer latestVersion tr,
  ∃ r evs,
    latestVersionLoop n i kubeVer latestVersion tr = (Returned r, tr ++ evs)
    ∧ (fetches evs ≤ n)%nat.
Proof.
  induction n as [|n IH]; intros i kubeVer latestVersion tr.
  { exists (kubeVer, latestVersion), []. simpl. rewrite app_nil_r. split; [done|].
    unfold fetches. simpl. lia. }
  simpl. unfold mbind, M_bind, emit.
  destruct (GetLatestVersion i) as [version [e|]]; simpl.
  - destruct (IH (S i) kubeVer latestVersion
      ((tr ++ [EvGetLatestVersion]) ++
        [EvLog ("Failed to get the latest KubeEdge release version, error:  " +:+ e)]))
      as (r & evs & -> & Hb).
    exists r, ([EvGetLatestVersion] ++ [EvLog ("Failed to get the latest KubeEdge release version, error:  " +:+ e)] ++ evs).
    split; [by rewrite <-!app_assoc|].
    rewrite !fetches_app. unfold fetches at 1 2. simpl. lia.
  - destruct (0 <? Z.of_nat (String.length version)).
    + exists (TrimPrefix version "v", version), [EvGetLatestVersion].
      split; [done|]. unfold fetches. simpl. lia.
    + destruct (IH (S i) kubeVer latestVersion (tr ++ [EvGetLatestVersion]))
        as (r & evs & -> & Hb).
      exists r, ([EvGetLatestVersion] ++ evs).
      split; [by rewrite <-!app_assoc|].
      rewrite !fetches_app. unfold fetches at 1. simpl. lia.
Qed.

(** C9. [AddInitBeta2ToolsList] calls [GetLatestVersion] at most
    [RetryTimes] times, whatever the answers. When every attempt fails or
    returns an empty version, and the default version parses, it returns
    no error; its effects are the attempts one after the other, each
    followed at most by its log line, then the log line of the fallback;
    and the tool it registers has the default version. *)
Theorem latest_version_retry_then_default toolList initBetaOptions tr :
  (∃ o evs,
     AddInitBeta2ToolsList toolList initBetaOptions tr = (o, tr ++ evs)
     ∧ (Z.of_nat (fetches evs) ≤ Z.max 0 RetryTimes))
  ∧ (∀ version,
       (∀ i, (i < Z.to_nat RetryTimes)%nat → attemptFails (GetLatestVersion i)) →
       semver_Make DefaultKubeEdgeVersion = (version, None) →
       ∃ toolList' tool,
         AddInitBeta2ToolsList toolList initBetaOptions tr
         = (Returned (toolList', None),
            tr ++ flat_map attemptEvents (seq 0 (Z.to_nat RetryTimes))
               ++ [EvLog ("Failed to get the latest KubeEdge release version, will use default version:  "
                          +:+ DefaultKubeEdgeVersion)])
         ∧ toolList' !! "helm" = Some tool
         ∧ ToolVersion (common tool) = version).
Proof.
  split.
  - unfold AddInitBeta2ToolsList, mbind, M_bind.
    destruct (latestVersionLoop_bound (Z.to_nat RetryTimes) 0 "" "" tr)
      as ([kubeVer latestVersion] & evs & -> & Hb).
    assert (∀ (o : Outcome (gmap string KubeCloudHelmInstTool * error))
      (evs' : list InitEvent), fetches evs' = 0%nat →
      ∃ o' evs'', (o, (tr ++ evs) ++ evs') = (o', tr ++ evs'')
        ∧ Z.of_nat (fetches evs'') ≤ Z.max 0 RetryTimes) as Hdone.
    { intros o evs' Hz. exists o, (evs ++ evs'). split; [by rewrite app_assoc|].
      rewrite fetches_app, Hz. lia. }
    unfold MustParse, emit, ret, mret, M_ret, panic.
    destruct (Z.of_nat (String.length latestVersion) =? 0).
    + destruct (semver_Make DefaultKubeEdgeVersion) as [v [e|]];
        by apply Hdone.
    + destruct (semver_Make kubeVer) as [v [e|]].
      * destruct (Hdone (Panicked ("semver: Parse(" +:+ kubeVer +:+ "): " +:+ e) : Outcome (gmap string KubeCloudHelmInstTool * error)) [])
          as (o' & evs'' & Heq & Hb'); [done|].
        rewrite app_nil_r in Heq. eauto.
      * match goal with |- ∃ _ _, (?o, _) = _ ∧ _ =>
          destruct (Hdone o []) as (o' & evs'' & Heq & Hb'); [done|] end.
        rewrite app_nil_r in Heq. eauto.
  - intros version Hfail Hparse.
    unfold AddInitBeta2ToolsList, mbind, M_bind.
    rewrite latestVersionLoop_all_fail by (intros; apply Hfail; lia).
    simpl. unfold MustParse, mbind, M_bind, emit, ret, mret, M_ret.
    rewrite Hparse. eexists _, _. split_and!.
    + by rewrite <-app_assoc.
    + apply lookup_insert_eq.
    + done.
Qed.
End InitBetaProperties.

(** * Evaluation on the reference environments *)

(** ** The deployment protocol *)

(** With no release deployed, the upgrade is followed by one install,
    which succeeds; with a broken chart, the upgrade error is returned
    and there is no install. *)
Lemma RunHelmInstall_protocol_witness :
  let notFound := Some "cloudcore has no deployed releases" in
  let broken := Some "chart requires kubeVersion" in
  let cu := refTool [] "" in
  (@Configuration_Init _ (refHelm None notFound None)
     (KubeConfig (common cu)) (Namespace cu) = None
   ∧ RunHelmInstall cu (refRenderer None notFound None) []
     = (Returned None,
        [EvInit "/root/.kube/config" "kubeedge";
         EvUpgrade (@upgradeOf _ _ (refHelm None notFound None) cu) "cloudcore"
           (chart (refRenderer None notFound None))
           (profileValsMap (refRenderer None notFound None));
         EvInstall
           (@installOf _ _ (refHelm None notFound None) cu
              (refRenderer None notFound None))
           (chart (refRenderer None notFound None))
           (profileValsMap (refRenderer None notFound None))]))
  ∧ ("chart requires kubeVersion"
     ≠ @NewErrNoDeployedReleases _ (refHelm None broken None) "cloudcore"
     ∧ RunHelmInstall cu (refRenderer None broken None) []
       = (Returned broken,
          [EvInit "/root/.kube/config" "kubeedge";
           EvUpgrade (@upgradeOf _ _ (refHelm None broken None) cu) "cloudcore"
             (chart (refRenderer None broken None))
             (profileValsMap (refRenderer None broken None))])).
Proof.
  intros notFound broken cu.
  assert ("chart requires kubeVersion"
          ≠ @NewErrNoDeployedReleases _ (refHelm None broken None) "cloudcore")
    as Hne by discriminate.
  split.
  - split; [reflexivity|].
    exact (proj1 (proj2 (proj2
             (RunHelmInstall_protocol cu (refRenderer None notFound None) [])
             eq_refl)) eq_refl).
  - split; [exact Hne|].
    exact (proj2 (proj2 (proj2
             (RunHelmInstall_protocol cu (refRenderer None broken None) [])
             eq_refl)) _ eq_refl Hne).
Defined.

(** With a cluster that cannot be reached, the run ends at the
    initialisation: no upgrade is attempted. *)
Lemma RunHelmInstall_init_failure_skips_upgrade :
  let cu := refTool [] "" in
  let r := refRenderer (Some "cluster unreachable") None None in
  RunHelmInstall cu r []
  = (Returned (Some "cluster unreachable"),
     [EvInit "/root/.kube/config" "kubeedge"])
  ∧ ∀ u name c vals,
      EvUpgrade u name c vals ∉ (RunHelmInstall cu r []).2.
Proof.
  intros cu r. split; [reflexivity|].
  intros u name c vals Hin. vm_compute in Hin.
  apply list_elem_of_singleton in Hin. discriminate.
Qed.

(** ** The override merger *)

(** Four overrides, one of them without [=]: it is reported, and the two
    of the path [a.b] leave one. *)
Lemma rebuildFlagVals_merges_witness :
  let cu := refTool ["c=3"; "a.b=2"; "zz"; "a.b=1"] "" in
  Forall nonEmptyPath (Sets cu)
  ∧ ∃ out,
      @rebuildFlagVals refSemver refValueTree (refHelm None None None) cu []
      = (Returned (set_Sets cu out, None), [EvPrintln "Unsported flags: zz"])
      ∧ NoDup (overridePath <$> out).
Proof.
  intros cu.
  assert (Forall nonEmptyPath (Sets cu)) as Hne.
  { repeat constructor; intros _; vm_compute; discriminate. }
  split; [exact Hne|].
  destruct (@rebuildFlagVals_merges refSemver refValueTree (refHelm None None None)
              cu [] Hne)
    as (out & Hrun & _ & _ & Hnd & _).
  exists out. split; [exact Hrun|exact Hnd].
Defined.

(** The overrides [a=1] and [a.b=2] are kept in the order [a.b=2], [a=1]:
    the full stop sorts below the equals sign, so the paths come out as
    [a.b], [a], which is not their ascending order. *)
Lemma rebuildFlagVals_not_path_sorted :
  let cu := refTool ["a=1"; "a.b=2"] "" in
  @rebuildFlagVals refSemver refValueTree (refHelm None None None) cu []
  = (Returned (set_Sets cu ["a.b=2"; "a=1"], None), [])
  ∧ overridePath <$> ["a.b=2"; "a=1"] = ["a.b"; "a"]
  ∧ ¬ String.le "a.b" "a".
Proof.
  intros cu. split; [reflexivity|]. split; [reflexivity|]. vm_compute. tauto.
Qed.

(** After a dropped expression, one that starts with [=] has the path of
    the initial [formerValue] while nothing is kept yet: the walk assigns
    to the last element of an empty slice. *)
Lemma rebuildFlagVals_panics_after_dropped :
  @rebuildFlagVals refSemver refValueTree (refHelm None None None)
    (refTool ["1"; "=x"] "") []
  = (Panicked "index out of range", [EvPrintln "Unsported flags: 1"]).
Proof. reflexivity. Qed.

(** ** The edge configuration *)


(** Without a token the reference validator objects: the error carries
    its message and nothing is written. *)
Lemma invalid_config_never_written_witness :
  let ku := onlyCloudCoreIP "1.2.3.4:8080" in
  ∃ c, @os_MkdirAll refEdgeHost (@KubeEdgeConfigDir refEdgeHost) = None
       ∧ @ValidateEdgeCoreConfiguration refEdgeHost c ≠ []
       ∧ @assembleEdgeCoreConfig refEdgeHost ku [] = (Returned (inl c), [])
       ∧ @createEdgeConfigFiles refEdgeHost ku []
         = (Returned (Some "token: Required value"),
            [EvMkdirAll "/etc/kubeedge/config/"]).
Proof.
  intros ku. eexists.
  split; [reflexivity|].
  assert (@ValidateEdgeCoreConfiguration refEdgeHost
            (defaultServers (set_identity refDefaultEdgeCoreConfig ku) ku) ≠ [])
    as Hv by (vm_compute; discriminate).
  split; [exact Hv|]. split; [reflexivity|].
  exact (proj1 (proj1 (@invalid_config_never_written refEdgeHost ku []) _ eq_refl Hv)
           eq_refl).
Defined.

(** The label [zone=east] is accepted; the label [east] stops the
    installer with a panic. *)
Lemma createEdgeConfigFiles_needs_eq_in_labels_witness :
  (Forall (λ label, hasEq label = true) (Labels (withLabels ["zone=east"]))
   ∧ ∃ err tr',
       @createEdgeConfigFiles refEdgeHost (withLabels ["zone=east"]) []
       = (Returned err, tr'))
  ∧ ("east" ∈ Labels (withLabels ["zone=west"; "east"])
     ∧ hasEq "east" = false
     ∧ @os_MkdirAll refEdgeHost (@KubeEdgeConfigDir refEdgeHost) = None
     ∧ knownCGroupDriver (CGroupDriver (withLabels ["zone=west"; "east"]))
     ∧ @createEdgeConfigFiles refEdgeHost (withLabels ["zone=west"; "east"]) []
       = (Panicked "index out of range", [EvMkdirAll "/etc/kubeedge/config/"])).
Proof.
  assert (Forall (λ label, hasEq label = true) (Labels (withLabels ["zone=east"])))
    as Hall by (repeat constructor).
  assert ("east" ∈ Labels (withLabels ["zone=west"; "east"])) as Hin
    by (right; left).
  assert (knownCGroupDriver (CGroupDriver (withLabels ["zone=west"; "east"])))
    as Hcg by (left; reflexivity).
  split.
  - split; [exact Hall|].
    exact (proj1 (proj1 (@createEdgeConfigFiles_needs_eq_in_labels refEdgeHost
                           (withLabels ["zone=east"]) []) Hall)).
  - split; [exact Hin|]. split; [reflexivity|]. split; [reflexivity|].
    split; [exact Hcg|].
    exact (proj1 (proj2 (proj2 (@createEdgeConfigFiles_needs_eq_in_labels refEdgeHost
                                  (withLabels ["zone=west"; "east"]) [])
                           "east" Hin eq_refl) eq_refl Hcg)).
Defined.

(** ** Profiles *)

(** With the minimum [v1.3.0]: [v1.5.0] gives the two tags, [v1.0.0] the
    error, and [latest] is taken as it is. *)
Lemma handleProfile_version_witness :
  let cu := set_ProfileKey (refTool [] "version=v1.5.0") "version" in
  (ProfileKey cu = VersionProfileKey
   ∧ @semver_Make refSemver (TrimPrefix (@HelmSupportedMinVersion refConstants) "v")
     = ((1, 3, 0)%N, None))
  ∧ (@semver_Make refSemver "1.5.0" = ((1, 5, 0)%N, None)
     ∧ @Version_LT refSemver (1, 5, 0)%N (1, 3, 0)%N = false
     ∧ @handleProfile refSemver refConstants cu "v1.5.0"
       = (set_Sets cu ["cloudCore.image.tag=v1.5.0";
                       "iptablesManager.image.tag=v1.5.0"], None))
  ∧ (@semver_Make refSemver "1.0.0" = ((1, 0, 0)%N, None)
     ∧ @Version_LT refSemver (1, 0, 0)%N (1, 3, 0)%N = true
     ∧ @handleProfile refSemver refConstants cu "v1.0.0"
       = (cu, Some "the given version v1.0.0 is not supported, you can try binary deployments with this version"))
  ∧ ((∀ suffix, "latest" ≠ String "v" suffix)
     ∧ @handleProfile refSemver refConstants cu "latest"
       = (set_Sets cu ["cloudCore.image.tag=latest";
                       "iptablesManager.image.tag=latest"], None)).
Proof.
  intros cu.
  assert (∀ suffix, "latest" ≠ String "v" suffix) as Hl by (intros; discriminate).
  split; [split; reflexivity|]. split; [|split].
  - split; [reflexivity|]. split; [reflexivity|].
    exact (proj2 (proj1 (@handleProfile_version refSemver refConstants cu "v1.5.0"
                           eq_refl) "1.5.0" (1, 5, 0)%N eq_refl eq_refl) eq_refl).
  - split; [reflexivity|]. split; [reflexivity|].
    exact (proj1 (proj1 (@handleProfile_version refSemver refConstants cu "v1.0.0"
                           eq_refl) "1.0.0" (1, 0, 0)%N eq_refl eq_refl) eq_refl).
  - split; [exact Hl|].
    exact (proj2 (@handleProfile_version refSemver refConstants cu "latest" eq_refl)
             Hl).
Defined.

(** C5, on the profile [iptablesMgrMode=bogus] with no override given:
    [handleProfile] returns no error and leaves the installer as it was,
    so no override of [iptablesManager.mode] is there, whereas for the
    value [external] it appends [iptablesManager.mode=external]. The mode
    [external] that the code assigns in the default case does not leave
    the function. *)
Theorem handleProfile_bogus_mode_sets_nothing :
  let cu := set_ProfileKey (refTool [] "iptablesMgrMode=bogus") "iptablesMgrMode" in
  @handleProfile refSemver refConstants cu "bogus" = (cu, None)
  ∧ Sets cu = []
  ∧ @handleProfile refSemver refConstants cu "external"
    = (set_Sets cu ["iptablesManager.mode=external"], None).
Proof. intros cu. split_and!; reflexivity. Qed.

(** The profile [version], without [=], and the profile [edgemesh=on],
    whose key the reference store does not know: both are rejected with
    the same error text. *)
Lemma BeforeRenderer_rejects_witness :
  (Profile (refTool [] "version") ≠ ""
   ∧ hasEq (Profile (refTool [] "version")) = false
   ∧ @BeforeRenderer refFmt refSemver refConstants refValueTree refStore
       (refHelm None None None) (refTool [] "version") []
     = (Returned (refTool [] "version", Some "invalid profile version"), []))
  ∧ (hasEq (Profile (refTool [] "edgemesh=on")) = true
     ∧ @checkProfile refFmt refSemver refValueTree refStore
         (set_ProfileKey (refTool [] "edgemesh=on") "edgemesh")
       = Some "unsupported profile edgemesh=on"
     ∧ @BeforeRenderer refFmt refSemver refConstants refValueTree refStore
         (refHelm None None None) (refTool [] "edgemesh=on") []
       = (Returned (set_ProfileKey (refTool [] "edgemesh=on") "edgemesh",
                    Some "invalid profile edgemesh=on"), [])).
Proof.
  assert (Profile (refTool [] "version") ≠ "") as H1 by discriminate.
  assert (Profile (refTool [] "edgemesh=on") ≠ "") as H2 by discriminate.
  split.
  - split; [exact H1|]. split; [reflexivity|].
    exact (proj1 (@BeforeRenderer_rejects refFmt refSemver refConstants refValueTree
                    refStore (refHelm None None None) (refTool [] "version") [])
             H1 eq_refl).
  - split; [reflexivity|].
    exact (proj1 (proj2 (@BeforeRenderer_rejects refFmt refSemver refConstants
                           refValueTree refStore (refHelm None None None)
                           (refTool [] "edgemesh=on") []))
             _ H2 eq_refl eq_refl eq_refl).
Defined.

(** The empty profile has a single part, yet resolution succeeds: it is
    resolved as [version=v1.3.0], the minimum of the reference
    constants. *)
Lemma BeforeRenderer_empty_profile_defaults :
  let cu := refTool [] "" in
  (Z.of_nat (length (Split (Profile cu) "=")) < 2)
  ∧ ∃ cu',
      @BeforeRenderer refFmt refSemver refConstants refValueTree refStore
        (refHelm None None None) cu []
      = (Returned (cu', None), [])
      ∧ Profile cu' = "version=v1.3.0"
      ∧ Sets cu' = ["cloudCore.image.tag=v1.3.0"; "iptablesManager.image.tag=v1.3.0"].
Proof.
  intros cu. split; [reflexivity|].
  eexists. split; [reflexivity|]. split; reflexivity.
Qed.

(** The profile [version=v1.5.0] resolves, and the value tree is the
    profile's values with the two tags folded in. *)
Lemma resolve_known_key_witness :
  let cu := refTool [] "version=v1.5.0" in
  ∃ cu' tr',
    @BeforeRenderer refFmt refSemver refConstants refValueTree refStore
      (refHelm None None None) cu [] = (Returned (cu', None), tr')
    ∧ ProfileKey cu' = "version"
    ∧ @combineProfVals refSemver refValueTree refStore cu'
      = (Some ["version"; "cloudCore.image.tag=v1.5.0";
               "iptablesManager.image.tag=v1.5.0"], None).
Proof.
  intros cu.
  destruct (@resolve_known_key refFmt refSemver refConstants refValueTree refStore
              (refHelm None None None) cu []
              (<["version" := true]> (<["iptablesMgrMode" := true]> ∅))
              "version" "v1.5.0")
    as (cu' & tr' & Hrun & Hkey & Hvals).
  - reflexivity.
  - reflexivity.
  - reflexivity.
  - reflexivity.
  - reflexivity.
  - intros _ suffix [= <-]. exists (1, 5, 0)%N. split; reflexivity.
  - constructor.
  - exists cu', tr'. split; [exact Hrun|]. split; [exact Hkey|].
    assert (@BeforeRenderer refFmt refSemver refConstants refValueTree refStore
              (refHelm None None None) cu []
            = (Returned
                 (set_Sets (set_ProfileKey cu "version")
                    ["cloudCore.image.tag=v1.5.0";
                     "iptablesManager.image.tag=v1.5.0"], None), []))
      as Hc by reflexivity.
    rewrite Hc in Hrun. injection Hrun as <- _.
    apply (Hvals "version" ["version"]); reflexivity.
Defined.

(** The profile [version=v1.0.0] is well formed and its key is known, but
    with the minimum [v1.3.0] resolution fails. *)
Lemma resolve_old_version_fails :
  let cu := refTool [] "version=v1.0.0" in
  Profile cu = "version" +:+ String "=" "v1.0.0"
  ∧ (<["version" := true]> (<["iptablesMgrMode" := true]> ∅) : gmap string bool)
      !! "version" = Some true
  ∧ @BeforeRenderer refFmt refSemver refConstants refValueTree refStore
      (refHelm None None None) cu []
    = (Returned (set_ProfileKey cu "version",
                 Some "can not handle profile version=v1.0.0"), []).
Proof. intros cu. split; [reflexivity|]. split; reflexivity. Qed.

(** ** Version discovery *)

(** Five attempts that time out: five calls, then the default version
    [1.9.0], and no error. *)
Lemma latest_version_retry_then_default_witness :
  let vs := refVersionSource (λ _, ("", Some "request timed out")) in
  (∀ i, (i < Z.to_nat (@RetryTimes refConstants))%nat →
        attemptFails (@GetLatestVersion vs i))
  ∧ @semver_Make refSemver (@DefaultKubeEdgeVersion refConstants)
    = ((1, 9, 0)%N, None)
  ∧ ∃ toolList' tool,
      (@AddInitBeta2ToolsList refSemver refConstants vs ∅ refInitBetaOptions []).1
      = Returned (toolList', None)
      ∧ @fetches (@AddInitBeta2ToolsList refSemver refConstants vs ∅
                    refInitBetaOptions []).2
        = 5%nat
      ∧ toolList' !! "helm" = Some tool
      ∧ ToolVersion (common tool) = (1, 9, 0)%N.
Proof.
  intros vs.
  assert (∀ i, (i < Z.to_nat (@RetryTimes refConstants))%nat →
               attemptFails (@GetLatestVersion vs i)) as Hfail.
  { intros i _. left. discriminate. }
  split; [exact Hfail|]. split; [reflexivity|].
  destruct (proj2 (@latest_version_retry_then_default refSemver refConstants vs
                     ∅ refInitBetaOptions []) (1, 9, 0)%N Hfail eq_refl)
    as (toolList' & tool & Hrun & Hlook & Hver).
  exists toolList', tool. rewrite Hrun. split; [reflexivity|].
  split; [reflexivity|]. split; [exact Hlook|exact Hver].
Defined.
